(** * Workflow execution tracker: polling client and library view

    A shallow embedding of two React components of the research workspace:

    - [Executor]: [components/generative/WorkflowExecutor.tsx], the status
      client, the polling effect, the cancel / retry handlers and the part
      of the render function that decides which screen and which header is
      shown;
    - [Library]: [components/interactable/WorkflowLibrary.tsx], the guarded
      list load, the delete handler and the active-workflow card.

    React state ([useState]), refs ([useRef]) and the effect bookkeeping are
    fields of an explicit state record.  An [async] handler is split at its
    [await]: the part before it issues a request and parks a continuation
    under the request's number; the part after it runs when the environment
    settles that request.  Numbers of the JSON payloads are modelled as
    integers. *)

From stdpp Require Import gmap strings list fin_maps pretty.

(** ** JavaScript values used by the components *)

Module Js.

(** [s || d] on strings: the empty string is falsy. *)
Definition truthy (s : string) : bool := negb (String.eqb s "").

Definition or_string (s d : string) : string := if truthy s then s else d.

(** [o && ...] on [string | null]. *)
Definition truthy_opt (o : option string) : bool :=
  match o with Some s => truthy s | None => false end.

(** The property names every object literal inherits from
    [Object.prototype].  All of them hold functions, except [__proto__],
    an accessor returning the prototype object: every one is truthy. *)
Definition objectPrototype : list string :=
  [ "constructor"; "hasOwnProperty"; "isPrototypeOf"; "propertyIsEnumerable";
    "toLocaleString"; "toString"; "valueOf"; "__proto__";
    "__defineGetter__"; "__defineSetter__";
    "__lookupGetter__"; "__lookupSetter__" ]%string.

(** What a property read [obj[key]] on an object literal yields: one of the
    literal's own values, or a member inherited from [Object.prototype]. *)
Inductive Value (A : Type) :=
| Own (a : A)
| Inherited (name : string).
Arguments Own {A} a.
Arguments Inherited {A} name.

(** [obj[key]] for an object literal [obj] whose own properties are [own]:
    own properties first, then the prototype; [None] is [undefined]. *)
Definition get {A} (own : gmap string A) (key : string) : option (Value A) :=
  match own !! key with
  | Some a => Some (Own a)
  | None => if bool_decide (key ∈ objectPrototype) then Some (Inherited key) else None
  end.

(** [obj[key] || d]: every value [get] can return is truthy, so the
    fallback is taken exactly when the read is [undefined]. *)
Definition get_or {A} (own : gmap string A) (key : string) (d : A) : Value A :=
  match get own key with
  | Some v => v
  | None => Own d
  end.

End Js.

(** ** HTTP requests and how they settle *)

Module Http.

Inductive Request :=
| GET (url : string)
| POST (url : string)
| DELETE (url : string).

(** How the promise of [fetch] settles: it rejects with an error message,
    or resolves to a response with its [ok] flag; [json] is what
    [response.json()] gives, [inl message] when that promise rejects. *)
Inductive Outcome (A : Type) :=
| Reject (message : string)
| Respond (ok : bool) (json : string + A).
Arguments Reject {A} message.
Arguments Respond {A} ok json.

#[global] Instance Request_eq_dec : EqDecision Request.
Proof. solve_decision. Defined.

End Http.

Import Http.

(** ** WorkflowExecutor *)

Module Executor.

(** *** Data model (the interfaces of the source) *)

Module StepStatus.
Record t := mk {
  index : Z;
  type : string;
  title : string;
  description : option string;
  status : string;
  error : option string;
  durationMs : option Z;
  hasOutput : option bool }.
End StepStatus.

Module WorkflowStatus.
Record t := mk {
  workflowId : string;
  title : string;
  description : option string;
  query : string;
  status : string;
  currentStep : Z;
  totalSteps : Z;
  progress : Z;
  steps : list StepStatus.t;
  outputFormat : option string;
  errorMessage : option string;
  failedStep : option Z;
  reportId : option string;
  reportTitle : option string;
  createdAt : string;
  completedAt : option string }.
End WorkflowStatus.

(** An element of the [steps] prop ([WorkflowExecutorPropsSchema]). *)
Module InitialStep.
Record t := mk {
  index : Z;
  type : string;
  title : string;
  description : option string;
  status : option string }.
End InitialStep.

(** [useTamboStreamStatus().streamStatus], the two flags the component reads. *)
Record StreamStatus := { isSuccess : bool; isError : bool }.

(** *** Lookup tables of the step renderer *)

Inductive Icon :=
| Search | Filter | Brain | Layers | FileText
| Loader | CheckCircle2 | XCircle | Clock.

Definition stepIcons : gmap string Icon :=
  <["search" := Search]> (<["extract" := Filter]> (<["analyze" := Brain]>
  (<["aggregate" := Layers]> (<["generate_report" := FileText]> ∅)))).

Record TypeColors := { bg : string; text : string; border : string }.

Definition colors (bg text border : string) : TypeColors :=
  {| bg := bg; text := text; border := border |}.

Definition stepTypeColors : gmap string TypeColors :=
  <["search" := colors "bg-blue-50" "text-blue-700" "border-blue-200"]>
  (<["extract" := colors "bg-amber-50" "text-amber-700" "border-amber-200"]>
  (<["analyze" := colors "bg-purple-50" "text-purple-700" "border-purple-200"]>
  (<["aggregate" := colors "bg-cyan-50" "text-cyan-700" "border-cyan-200"]>
  (<["generate_report" := colors "bg-green-50" "text-green-700" "border-green-200"]>
   ∅)))).

Record StatusInfo := { icon : Icon; color : string; animate : option string }.

Definition statusIcons_pending : StatusInfo :=
  {| icon := Clock; color := "text-gray-400"; animate := None |}.

Definition statusIcons : gmap string StatusInfo :=
  <["pending" := statusIcons_pending]>
  (<["running" := {| icon := Loader; color := "text-blue-600"; animate := Some "animate-spin" |}]>
  (<["completed" := {| icon := CheckCircle2; color := "text-green-600"; animate := None |}]>
  (<["failed" := {| icon := XCircle; color := "text-red-600"; animate := None |}]> ∅))).

(** *** Component state *)

(** What runs when a request settles: the rest of [fetchStatus], of
    [handleCancel] or of [handleRetry] after its [await].  The two
    handlers close over the [fetchStatus] of the render they were
    created in, hence over its [workflowId]. *)
Inductive Continuation :=
| KStatus
| KCancel (id : string)
| KRetry (id : string).

#[global] Instance Continuation_eq_dec : EqDecision Continuation.
Proof. solve_decision. Defined.

(** The dependency array [[isStreaming, workflowId, polling, fetchStatus]];
    [fetchStatus] is a [useCallback] over [workflowId] alone, so its
    identity changes exactly when [workflowId] does. *)
Definition Deps : Type := bool * string * bool.

Record State := {
  (* props and the stream hook *)
  workflowId : string;
  initialSteps : option (list InitialStep.t);
  streamStatus : StreamStatus;
  (* useState *)
  workflowStatus : option WorkflowStatus.t;
  expandedStep : option Z;
  polling : bool;
  error : option string;
  (* useRef *)
  intervalRef : option nat;
  (* the effect as React keeps it: the dependencies it last ran with and
     whether that run returned a cleanup function *)
  effectDeps : option Deps;
  effectCleanup : bool;
  (* the browser: active interval timers, the next handle, requests in
     flight with their continuation, every request issued, the console *)
  timers : gset nat;
  nextTimer : nat;
  pending : gmap nat Continuation;
  requests : list Request;
  console : list (string * string) }.

Definition isStreaming (s : State) : bool :=
  negb (isSuccess (streamStatus s)) && negb (isError (streamStatus s)).

Definition deps (s : State) : Deps := (isStreaming s, workflowId s, polling s).

(** State before the first effect has run: [useState(null)],
    [useState(true)] for [polling], [useRef(null)]. *)
Definition init (id : string) (steps : option (list InitialStep.t))
    (ss : StreamStatus) : State :=
  {| workflowId := id; initialSteps := steps; streamStatus := ss;
     workflowStatus := None; expandedStep := None; polling := true; error := None;
     intervalRef := None; effectDeps := None; effectCleanup := false;
     timers := ∅; nextTimer := 1; pending := ∅; requests := []; console := [] |}.

(** **** Setters *)

Definition setProps (id : string) (steps : option (list InitialStep.t)) (s : State) : State :=
  {| workflowId := id; initialSteps := steps; streamStatus := streamStatus s;
     workflowStatus := workflowStatus s; expandedStep := expandedStep s;
     polling := polling s; error := error s; intervalRef := intervalRef s;
     effectDeps := effectDeps s; effectCleanup := effectCleanup s;
     timers := timers s; nextTimer := nextTimer s; pending := pending s;
     requests := requests s; console := console s |}.

Definition setStreamStatus (ss : StreamStatus) (s : State) : State :=
  {| workflowId := workflowId s; initialSteps := initialSteps s; streamStatus := ss;
     workflowStatus := workflowStatus s; expandedStep := expandedStep s;
     polling := polling s; error := error s; intervalRef := intervalRef s;
     effectDeps := effectDeps s; effectCleanup := effectCleanup s;
     timers := timers s; nextTimer := nextTimer s; pending := pending s;
     requests := requests s; console := console s |}.

Definition setWorkflowStatus (w : option WorkflowStatus.t) (s : State) : State :=
  {| workflowId := workflowId s; initialSteps := initialSteps s;
     streamStatus := streamStatus s;
     workflowStatus := w; expandedStep := expandedStep s;
     polling := polling s; error := error s; intervalRef := intervalRef s;
     effectDeps := effectDeps s; effectCleanup := effectCleanup s;
     timers := timers s; nextTimer := nextTimer s; pending := pending s;
     requests := requests s; console := console s |}.

Definition setExpandedStep (i : option Z) (s : State) : State :=
  {| workflowId := workflowId s; initialSteps := initialSteps s;
     streamStatus := streamStatus s;
     workflowStatus := workflowStatus s; expandedStep := i;
     polling := polling s; error := error s; intervalRef := intervalRef s;
     effectDeps := effectDeps s; effectCleanup := effectCleanup s;
     timers := timers s; nextTimer := nextTimer s; pending := pending s;
     requests := requests s; console := console s |}.

Definition setPolling (b : bool) (s : State) : State :=
  {| workflowId := workflowId s; initialSteps := initialSteps s;
     streamStatus := streamStatus s;
     workflowStatus := workflowStatus s; expandedStep := expandedStep s;
     polling := b; error := error s; intervalRef := intervalRef s;
     effectDeps := effectDeps s; effectCleanup := effectCleanup s;
     timers := timers s; nextTimer := nextTimer s; pending := pending s;
     requests := requests s; console := console s |}.

Definition setError (e : option string) (s : State) : State :=
  {| workflowId := workflowId s; initialSteps := initialSteps s;
     streamStatus := streamStatus s;
     workflowStatus := workflowStatus s; expandedStep := expandedStep s;
     polling := polling s; error := e; intervalRef := intervalRef s;
     effectDeps := effectDeps s; effectCleanup := effectCleanup s;
     timers := timers s; nextTimer := nextTimer s; pending := pending s;
     requests := requests s; console := console s |}.

(** The effect's bookkeeping after a run. *)
Definition setEffect (d : Deps) (cleanup : bool) (s : State) : State :=
  {| workflowId := workflowId s; initialSteps := initialSteps s;
     streamStatus := streamStatus s;
     workflowStatus := workflowStatus s; expandedStep := expandedStep s;
     polling := polling s; error := error s; intervalRef := intervalRef s;
     effectDeps := Some d; effectCleanup := cleanup;
     timers := timers s; nextTimer := nextTimer s; pending := pending s;
     requests := requests s; console := console s |}.

(** [intervalRef.current = setInterval(fetchStatus, 2500)]: a fresh
    non-zero handle becomes active and is stored in the ref. *)
Definition setInterval (s : State) : State :=
  {| workflowId := workflowId s; initialSteps := initialSteps s;
     streamStatus := streamStatus s;
     workflowStatus := workflowStatus s; expandedStep := expandedStep s;
     polling := polling s; error := error s; intervalRef := Some (nextTimer s);
     effectDeps := effectDeps s; effectCleanup := effectCleanup s;
     timers := {[nextTimer s]} ∪ timers s; nextTimer := S (nextTimer s);
     pending := pending s; requests := requests s; console := console s |}.

(** [clearInterval(h)]: the handle stops being active; the ref is left as
    it is. *)
Definition clearInterval (h : nat) (s : State) : State :=
  {| workflowId := workflowId s; initialSteps := initialSteps s;
     streamStatus := streamStatus s;
     workflowStatus := workflowStatus s; expandedStep := expandedStep s;
     polling := polling s; error := error s; intervalRef := intervalRef s;
     effectDeps := effectDeps s; effectCleanup := effectCleanup s;
     timers := timers s ∖ {[h]}; nextTimer := nextTimer s;
     pending := pending s; requests := requests s; console := console s |}.

(** [fetch(...)] up to its [await]: the request is numbered by its position
    in the log and its continuation parked. *)
Definition issue (r : Request) (k : Continuation) (s : State) : State :=
  {| workflowId := workflowId s; initialSteps := initialSteps s;
     streamStatus := streamStatus s;
     workflowStatus := workflowStatus s; expandedStep := expandedStep s;
     polling := polling s; error := error s; intervalRef := intervalRef s;
     effectDeps := effectDeps s; effectCleanup := effectCleanup s;
     timers := timers s; nextTimer := nextTimer s;
     pending := <[length (requests s) := k]> (pending s);
     requests := requests s ++ [r]; console := console s |}.

(** A settled request leaves the in-flight table. *)
Definition complete (rid : nat) (s : State) : State :=
  {| workflowId := workflowId s; initialSteps := initialSteps s;
     streamStatus := streamStatus s;
     workflowStatus := workflowStatus s; expandedStep := expandedStep s;
     polling := polling s; error := error s; intervalRef := intervalRef s;
     effectDeps := effectDeps s; effectCleanup := effectCleanup s;
     timers := timers s; nextTimer := nextTimer s;
     pending := delete rid (pending s);
     requests := requests s; console := console s |}.

(** [console.error(label, err)]. *)
Definition console_error (label message : string) (s : State) : State :=
  {| workflowId := workflowId s; initialSteps := initialSteps s;
     streamStatus := streamStatus s;
     workflowStatus := workflowStatus s; expandedStep := expandedStep s;
     polling := polling s; error := error s; intervalRef := intervalRef s;
     effectDeps := effectDeps s; effectCleanup := effectCleanup s;
     timers := timers s; nextTimer := nextTimer s; pending := pending s;
     requests := requests s; console := console s ++ [(label, message)] |}.

(** *** The status client *)

Definition statusUrl (id : string) : string := "/api/workflows/" +:+ id +:+ "/status".
Definition cancelUrl (id : string) : string := "/api/workflows/" +:+ id +:+ "/cancel".
Definition retryUrl (id : string) : string := "/api/workflows/" +:+ id +:+ "/retry".

(** [data.status === 'completed' || data.status === 'failed'] *)
Definition isTerminal (status : string) : bool :=
  String.eqb status "completed" || String.eqb status "failed".

(** [fetchStatus] up to [await fetch(...)]. *)
Definition fetchStatus (id : string) (s : State) : State :=
  issue (GET (statusUrl id)) KStatus s.

(** What [await response.json()] gives for a status response.  The body
    is not validated, so besides an object of the declared interface
    [data] may be [null], or a falsy primitive ([false], [0] or the empty
    string). *)
Inductive Body :=
| JNull
| JFalsy
| JObject (w : WorkflowStatus.t).

(** What the component reads from its state after [setWorkflowStatus(data)].
    Every use of [workflowStatus] is a truthiness test ([!workflowStatus])
    or an optional chain ([workflowStatus?.steps], [workflowStatus?.status],
    ...), and a falsy primitive answers each of them as [null] does. *)
Definition cached (data : Body) : option WorkflowStatus.t :=
  match data with
  | JObject w => Some w
  | JNull | JFalsy => None
  end.

(** [err.message] of the [TypeError] that reading [data.status] throws when
    [data] is [null].  Engines word it differently; none leaves it empty. *)
Definition nullStatusError : string :=
  "Cannot read properties of null (reading 'status')".

(** [fetchStatus] after the [await]: a response that is not [ok] throws
    ['Failed to fetch status']; a thrown or rejected error ends in
    [setError(err.message)].  A parsed body is stored as it is and the
    error reset, before [data.status] is read: for an object, polling is
    switched off on a terminal status; on a falsy primitive the read gives
    [undefined]; for [null] the read throws, and the [catch] sets the error
    on top of the two updates already made. *)
Definition fetchStatus_settled (o : Outcome Body) (s : State) : State :=
  match o with
  | Reject message => setError (Some message) s
  | Respond false _ => setError (Some "Failed to fetch status") s
  | Respond true (inl message) => setError (Some message) s
  | Respond true (inr data) =>
      let s1 := setError None (setWorkflowStatus (cached data) s) in
      match data with
      | JObject w =>
          if isTerminal (WorkflowStatus.status w) then setPolling false s1 else s1
      | JFalsy => s1
      | JNull => setError (Some nullStatusError) s1
      end
  end.

(** *** The polling effect *)

(** The effect body: nothing while streaming or without a workflow id;
    otherwise the initial fetch, the interval when [polling], and a
    cleanup function. *)
Definition effect (s : State) : State :=
  if isStreaming s || negb (Js.truthy (workflowId s))
  then setEffect (deps s) false s
  else
    let s1 := fetchStatus (workflowId s) s in
    let s2 := if polling s1 then setInterval s1 else s1 in
    setEffect (deps s) true s2.

(** The cleanup the previous run returned, if it returned one:
    [if (intervalRef.current) clearInterval(intervalRef.current)].
    Interval handles are non-zero, so the test is on the ref being set. *)
Definition cleanup (s : State) : State :=
  if effectCleanup s then
    match intervalRef s with
    | Some h => clearInterval h s
    | None => s
    end
  else s.

(** After a render React compares the dependencies with those of the last
    run; when they differ (or on mount) it runs the old cleanup and then
    the effect. *)
Definition commit (s : State) : State :=
  if decide (effectDeps s = Some (deps s)) then s else effect (cleanup s).

(** *** Action handlers *)

Definition handleCancel (s : State) : State :=
  issue (POST (cancelUrl (workflowId s))) (KCancel (workflowId s)) s.

Definition handleCancel_settled (id : string) (o : Outcome Body)
    (s : State) : State :=
  match o with
  | Reject message => console_error "Cancel failed:" message s
  | Respond _ _ => fetchStatus id s
  end.

Definition handleRetry (s : State) : State :=
  issue (POST (retryUrl (workflowId s))) (KRetry (workflowId s)) s.

Definition handleRetry_settled (id : string) (o : Outcome Body)
    (s : State) : State :=
  match o with
  | Reject message => console_error "Retry failed:" message s
  | Respond _ _ => fetchStatus id (setPolling true s)
  end.

Definition resume (k : Continuation) (o : Outcome Body) (s : State) : State :=
  match k with
  | KStatus => fetchStatus_settled o s
  | KCancel id => handleCancel_settled id o s
  | KRetry id => handleRetry_settled id o s
  end.

(** *** Render *)

(** [initialSteps?.map(...)]: a missing status becomes ['pending']. *)
Definition ofInitialStep (i : InitialStep.t) : StepStatus.t :=
  {| StepStatus.index := InitialStep.index i;
     StepStatus.type := InitialStep.type i;
     StepStatus.title := InitialStep.title i;
     StepStatus.description := InitialStep.description i;
     StepStatus.status :=
       match InitialStep.status i with
       | Some st => Js.or_string st "pending"
       | None => "pending"
       end;
     StepStatus.error := None;
     StepStatus.durationMs := None;
     StepStatus.hasOutput := None |}.

(** [workflowStatus?.steps || initialSteps?.map(...) || []] *)
Definition steps (s : State) : list StepStatus.t :=
  match workflowStatus s with
  | Some w => WorkflowStatus.steps w
  | None =>
      match initialSteps s with
      | Some l => ofInitialStep <$> l
      | None => []
      end
  end.

(** [workflowStatus?.status || 'pending'] *)
Definition status (s : State) : string :=
  match workflowStatus s with
  | Some w => Js.or_string (WorkflowStatus.status w) "pending"
  | None => "pending"
  end.

(** [workflowStatus?.progress || 0] *)
Definition progress (s : State) : Z :=
  match workflowStatus s with
  | Some w => WorkflowStatus.progress w
  | None => 0
  end.

(** [workflowStatus?.title || 'Research Workflow'] *)
Definition title (s : State) : string :=
  match workflowStatus s with
  | Some w => Js.or_string (WorkflowStatus.title w) "Research Workflow"
  | None => "Research Workflow"
  end.

Definition completedCount (s : State) : nat :=
  length (filter (λ st, StepStatus.status st = "completed") (steps s)).

Definition totalSteps (s : State) : nat := length (steps s).

(** One row of the steps list. *)
Record StepRow := {
  stepOf : StepStatus.t;
  StepIcon : Js.Value Icon;
  StatusInfo_ : Js.Value StatusInfo;
  typeColors : Js.Value TypeColors;
  isExpanded : bool }.

Definition stepIcon (type : string) : Js.Value Icon :=
  Js.get_or stepIcons type FileText.

Definition renderStep (expanded : option Z) (st : StepStatus.t) : StepRow :=
  {| stepOf := st;
     StepIcon := stepIcon (StepStatus.type st);
     StatusInfo_ := Js.get_or statusIcons (StepStatus.status st) statusIcons_pending;
     typeColors :=
       Js.get_or stepTypeColors (StepStatus.type st)
         (colors "bg-blue-50" "text-blue-700" "border-blue-200");
     isExpanded := bool_decide (expanded = Some (StepStatus.index st)) |}.

(** The main screen, as far as the header and the rows go. *)
Record Tracker := {
  header_title : string;
  header_status : string;
  cancelButton : bool;
  retryButton : bool;
  stepLabel : string;
  progressLabel : string;
  barWidth : Z;
  rows : list StepRow }.

Definition tracker (s : State) : Tracker :=
  {| header_title := title s;
     header_status := status s;
     cancelButton := String.eqb (status s) "running";
     retryButton := String.eqb (status s) "failed";
     stepLabel :=
       "Step " +:+ pretty (Nat.min (completedCount s + 1) (totalSteps s))
         +:+ " of " +:+ pretty (totalSteps s);
     progressLabel := pretty (progress s) +:+ "% complete";
     barWidth := Z.max (progress s) (if String.eqb (status s) "running" then 5 else 0);
     rows := renderStep (expandedStep s) <$> steps s |}.

Inductive View :=
| Preparing                       (* "Preparing workflow..." *)
| LoadFailed (message : string)   (* "Failed to load workflow", with a Retry button *)
| Main (t : Tracker).

Definition view (s : State) : View :=
  if isStreaming s then Preparing
  else
    match error s, workflowStatus s with
    | Some message, None => if Js.truthy message then LoadFailed message else Main (tracker s)
    | _, _ => Main (tracker s)
    end.

(** *** Events *)

(** What can happen to a mounted component.

    [PropsChanged] is a re-render with new props and [StreamChanged] a
    re-render in which the stream hook returns another status; either can
    come at any time, and the effect re-runs when its dependencies have
    changed.  [StreamSettled] is the stream reporting success or error.

    A timer callback runs only for an active handle.  It is the
    [fetchStatus] of the render whose effect started the timer; the effect
    re-runs, and clears the timer, whenever [workflowId] changes, so that
    callback's [workflowId] is the current one.

    A click reaches its handler only through a button that is rendered:
    Cancel and Retry on the main screen for a running, respectively failed,
    status, and the Retry of the error screen, which calls [fetchStatus]
    directly.  [ClickStep] is a click on a row of the steps list. *)
Inductive Event :=
| PropsChanged (id : string) (steps : option (list InitialStep.t))
| StreamSettled (success : bool)
| StreamChanged (ss : StreamStatus)
| TimerFired (h : nat)
| Settled (rid : nat) (o : Outcome Body)
| ClickCancel
| ClickRetry
| ClickErrorRetry
| ClickStep (row : nat).

Definition handle (e : Event) (s : State) : State :=
  match e with
  | PropsChanged id st => setProps id st s
  | StreamSettled success =>
      setStreamStatus
        (if success
         then {| isSuccess := true; isError := isError (streamStatus s) |}
         else {| isSuccess := isSuccess (streamStatus s); isError := true |}) s
  | StreamChanged ss => setStreamStatus ss s
  | TimerFired h =>
      if decide (h ∈ timers s) then fetchStatus (workflowId s) s else s
  | Settled rid o =>
      match pending s !! rid with
      | Some k => resume k o (complete rid s)
      | None => s
      end
  | ClickCancel =>
      match view s with
      | Main t => if cancelButton t then handleCancel s else s
      | _ => s
      end
  | ClickRetry =>
      match view s with
      | Main t => if retryButton t then handleRetry s else s
      | _ => s
      end
  | ClickErrorRetry =>
      match view s with
      | LoadFailed _ => fetchStatus (workflowId s) s
      | _ => s
      end
  | ClickStep row =>
      match view s with
      | Main t =>
          match rows t !! row with
          | Some r =>
              setExpandedStep
                (if isExpanded r then None else Some (StepStatus.index (stepOf r))) s
          | None => s
          end
      | _ => s
      end
  end.

(** One turn of the event loop: the handler, then the re-render with its
    effect. *)
Definition step (s : State) (e : Event) : State := commit (handle e s).

Definition run (s : State) (es : list Event) : State := foldl step s es.

Definition mount (id : string) (steps : option (list InitialStep.t))
    (ss : StreamStatus) : State :=
  commit (init id steps ss).

(** The states of a mounted component, whatever its parent and the stream
    hook do. *)
Inductive reachable : State → Prop :=
| reachable_mount id steps ss : reachable (mount id steps ss)
| reachable_step s e : reachable s → reachable (step s e).

(** The component as the generation subsystem drives it: it is rendered
    while the response that carries its props is still being generated,
    so props change only while the response is streaming (until then the
    workflow identifier "may not yet be confirmed"), and the stream status
    changes only by settling ([isStreaming] is "true until the AI response
    stream reports success or error"). *)
Definition lifecycle (s : State) (e : Event) : bool :=
  match e with
  | PropsChanged _ _ => isStreaming s
  | StreamChanged _ => false
  | _ => true
  end.

Inductive generated : State → Prop :=
| generated_mount id steps ss : generated (mount id steps ss)
| generated_step s e :
    generated s → lifecycle s e = true → generated (step s e).


(** *** Invariants of the event loop *)

(** An active timer is the one the ref holds, and the effect run that
    started it returned a cleanup. *)
Definition timer_inv (s : State) : Prop :=
  ∀ h, h ∈ timers s → intervalRef s = Some h ∧ effectCleanup s = true.

(** A timer is active only if the effect last ran with streaming over, a
    non-empty id and polling on. *)
Definition active_inv (s : State) : Prop :=
  timers s ≠ ∅ → ∃ id, effectDeps s = Some (false, id, true) ∧ id ≠ "".

(** What holds between two turns of the event loop; [inv_flushed] says the
    effect has run with the current dependencies. *)
Record Inv (s : State) : Prop := {
  inv_timer : timer_inv s;
  inv_active : active_inv s;
  inv_flushed : effectDeps s = Some (deps s) }.

(** In a [generated] component: while streaming, or without an id, nothing
    has happened yet. *)
Definition quiet_inv (s : State) : Prop :=
  isStreaming s = true ∨ workflowId s = "" →
  requests s = [] ∧ pending s = ∅ ∧ workflowStatus s = None ∧ error s = None
  ∧ timers s = ∅ ∧ polling s = true.

(** *** Classes of events *)

(** [e] is the retry command coming back resolved: the one event that
    switches polling on again. *)
Definition retry_resolves (s : State) (e : Event) : bool :=
  match e with
  | Settled rid (Respond _ _) =>
      match pending s !! rid with
      | Some (KRetry _) => true
      | _ => false
      end
  | _ => false
  end.

(** No retry command resolves along [es], run from [s]. *)
Fixpoint without_retry (s : State) (es : list Event) : Prop :=
  match es with
  | [] => True
  | e :: es' => retry_resolves s e = false ∧ without_retry (step s e) es'
  end.

(** What a cancel action must leave as it was: the cached status, the
    polling flag, the error, the active timers and the screen. *)
Definition untouched (s s' : State) : Prop :=
  workflowStatus s' = workflowStatus s ∧ polling s' = polling s
  ∧ error s' = error s ∧ timers s' = timers s ∧ view s' = view s.

(** [e] belongs to a cancel action: the click, or the cancel command
    settling. *)
Definition cancel_event (s : State) (e : Event) : bool :=
  match e with
  | ClickCancel => true
  | Settled rid _ =>
      match pending s !! rid with
      | Some (KCancel _) => true
      | _ => false
      end
  | _ => false
  end.


Fixpoint only_cancel (s : State) (es : list Event) : Prop :=
  match es with
  | [] => True
  | e :: es' => cancel_event s e = true ∧ only_cancel (step s e) es'
  end.

(** *** Sample data *)

Definition settled : StreamStatus := {| isSuccess := true; isError := false |}.
Definition streaming : StreamStatus := {| isSuccess := false; isError := false |}.

Definition sampleStep (index : Z) (type status : string) : StepStatus.t :=
  {| StepStatus.index := index; StepStatus.type := type;
     StepStatus.title := type; StepStatus.description := None;
     StepStatus.status := status; StepStatus.error := None;
     StepStatus.durationMs := None; StepStatus.hasOutput := None |}.

Definition snapshot (status : string) (currentStep totalSteps progress : Z)
    (steps : list StepStatus.t) : WorkflowStatus.t :=
  {| WorkflowStatus.workflowId := "wf_1";
     WorkflowStatus.title := "Compare frameworks";
     WorkflowStatus.description := None;
     WorkflowStatus.query := "top frameworks";
     WorkflowStatus.status := status;
     WorkflowStatus.currentStep := currentStep;
     WorkflowStatus.totalSteps := totalSteps;
     WorkflowStatus.progress := progress;
     WorkflowStatus.steps := steps;
     WorkflowStatus.outputFormat := None;
     WorkflowStatus.errorMessage := None;
     WorkflowStatus.failedStep := None;
     WorkflowStatus.reportId := None;
     WorkflowStatus.reportTitle := None;
     WorkflowStatus.createdAt := "2026-01-01T00:00:00Z";
     WorkflowStatus.completedAt := None |}.

(** A body the cancel and retry handlers never read. *)
Definition noBody : string + Body := inl "".

(** [wf_1] mounted after the stream has settled: request 0 is the initial
    fetch and timer 1 is running. *)
Definition wf1_polling : State := mount "wf_1" None settled.

(** The first fetch came back failed: the tracker is settled. *)
Definition wf1_failed : State :=
  run wf1_polling [Settled 0 (Respond true (inr (JObject (snapshot "failed" 1 4 25 []))))].

(** The first fetch came back running, and the timer fired once: requests
    1 is in flight. *)
Definition wf1_running : State :=
  run wf1_polling
    [Settled 0 (Respond true (inr (JObject (snapshot "running" 1 4 25 []))));
     TimerFired 1].

(** Two status requests in flight: the initial one and the first tick's. *)
Definition wf1_two_in_flight : State := run wf1_polling [TimerFired 1].

(** [currentStep = 2] of [totalSteps = 5], sent while the third step is
    already marked completed. *)
Definition late_payload : WorkflowStatus.t :=
  snapshot "running" 2 5 40
    [ sampleStep 0 "search" "completed"; sampleStep 1 "extract" "completed";
      sampleStep 2 "analyze" "completed"; sampleStep 3 "aggregate" "running";
      sampleStep 4 "generate_report" "pending" ].

(** The status the specification asks for after a run of events: among
    the successful status bodies delivered along [es], the one answering
    the request issued last, that is the one with the greatest number. *)
Definition spec_latest_issued (es : list Event) : option WorkflowStatus.t :=
  snd <$>
    foldl (λ acc e,
             match e with
             | Settled rid (Respond true (inr (JObject data))) =>
                 match acc with
                 | Some (r, _) => if bool_decide (r < rid) then Some (rid, data) else acc
                 | None => Some (rid, data)
                 end
             | _ => acc
             end) None es.

End Executor.

(** ** WorkflowLibrary *)

Module Library.

(** An element of the [workflows] prop ([WorkflowLibraryPropsSchema]). *)
Module Workflow.
Record t := mk {
  id : string;
  title : string;
  description : option string;
  query : string;
  status : string;
  currentStep : Z;
  totalSteps : Z;
  sources : list string;
  outputFormat : string;
  errorMessage : option string;
  createdAt : string;
  completedAt : option string;
  report : option (string * string) }.

#[global] Instance eq_dec : EqDecision t.
Proof. solve_decision. Defined.
End Workflow.

Record ConfirmDialog := {
  isOpen : bool;
  dialog_workflowId : string;
  workflowTitle : string }.

(** The rest of an [async] handler after its [await].  [handleDeleteWorkflow]
    closes over the [safeWorkflows] of the render it was created in. *)
Inductive Continuation :=
| KLoad
| KDelete (workflowId : string) (safeWorkflows : list Workflow.t)
| KCancel
| KRetry.

#[global] Instance Continuation_eq_dec : EqDecision Continuation.
Proof. solve_decision. Defined.

(** The body of the list endpoint: [data.workflows], possibly missing.  A
    body that [data.workflows] cannot be read from ([null]) throws inside
    the [try] before any state is set, as a rejected [json()] does: it is
    the [inl] case of the outcome. *)
Definition Body : Type := option (list Workflow.t).

Record State := {
  (* useTamboComponentState, useState *)
  workflows : option (list Workflow.t);
  loading : bool;
  confirmDialog : option ConfirmDialog;
  (* useRef *)
  hasLoadedRef : bool;
  isLoadingRef : bool;
  (* the browser *)
  pending : gmap nat Continuation;
  requests : list Request;
  console : list (string * string) }.

(** [workflows ?? []] *)
Definition safeWorkflows (s : State) : list Workflow.t :=
  default [] (workflows s).

(** State of the first render: [useState(false)], [useRef(false)]. *)
Definition init (initialWorkflows : option (list Workflow.t)) : State :=
  {| workflows := Some (default [] initialWorkflows); loading := false;
     confirmDialog := None; hasLoadedRef := false; isLoadingRef := false;
     pending := ∅; requests := []; console := [] |}.

Definition setWorkflows (ws : list Workflow.t) (s : State) : State :=
  {| workflows := Some ws; loading := loading s; confirmDialog := confirmDialog s;
     hasLoadedRef := hasLoadedRef s; isLoadingRef := isLoadingRef s;
     pending := pending s; requests := requests s; console := console s |}.

Definition setLoading (b : bool) (s : State) : State :=
  {| workflows := workflows s; loading := b; confirmDialog := confirmDialog s;
     hasLoadedRef := hasLoadedRef s; isLoadingRef := isLoadingRef s;
     pending := pending s; requests := requests s; console := console s |}.

Definition setConfirmDialog (d : option ConfirmDialog) (s : State) : State :=
  {| workflows := workflows s; loading := loading s; confirmDialog := d;
     hasLoadedRef := hasLoadedRef s; isLoadingRef := isLoadingRef s;
     pending := pending s; requests := requests s; console := console s |}.

Definition setHasLoadedRef (b : bool) (s : State) : State :=
  {| workflows := workflows s; loading := loading s; confirmDialog := confirmDialog s;
     hasLoadedRef := b; isLoadingRef := isLoadingRef s;
     pending := pending s; requests := requests s; console := console s |}.

Definition setIsLoadingRef (b : bool) (s : State) : State :=
  {| workflows := workflows s; loading := loading s; confirmDialog := confirmDialog s;
     hasLoadedRef := hasLoadedRef s; isLoadingRef := b;
     pending := pending s; requests := requests s; console := console s |}.

Definition issue (r : Request) (k : Continuation) (s : State) : State :=
  {| workflows := workflows s; loading := loading s; confirmDialog := confirmDialog s;
     hasLoadedRef := hasLoadedRef s; isLoadingRef := isLoadingRef s;
     pending := <[length (requests s) := k]> (pending s);
     requests := requests s ++ [r]; console := console s |}.

Definition complete (rid : nat) (s : State) : State :=
  {| workflows := workflows s; loading := loading s; confirmDialog := confirmDialog s;
     hasLoadedRef := hasLoadedRef s; isLoadingRef := isLoadingRef s;
     pending := delete rid (pending s);
     requests := requests s; console := console s |}.

Definition console_error (label message : string) (s : State) : State :=
  {| workflows := workflows s; loading := loading s; confirmDialog := confirmDialog s;
     hasLoadedRef := hasLoadedRef s; isLoadingRef := isLoadingRef s;
     pending := pending s; requests := requests s;
     console := console s ++ [(label, message)] |}.

(** *** Loading the list *)

(** [loadWorkflows] up to its [await]: it returns at once when a load is
    outstanding. *)
Definition loadWorkflows (s : State) : State :=
  if isLoadingRef s then s
  else issue (GET "/api/workflows") KLoad (setLoading true (setIsLoadingRef true s)).

(** [loadWorkflows] after the [await]: the [try] part, then [finally]. *)
Definition loadWorkflows_settled (o : Outcome Body) (s : State) : State :=
  let s1 :=
    match o with
    | Reject message => console_error "Failed to load workflows:" message s
    | Respond false _ => s
    | Respond true (inl message) => console_error "Failed to load workflows:" message s
    | Respond true (inr data) => setHasLoadedRef true (setWorkflows (default [] data) s)
    end in
  setIsLoadingRef false (setLoading false s1).

Definition handleRefresh (s : State) : State :=
  loadWorkflows (setHasLoadedRef false s).

(** The effect with the empty dependency array. *)
Definition mountEffect (s : State) : State :=
  if negb (hasLoadedRef s) && negb (isLoadingRef s) then loadWorkflows s else s.

(** *** Delete, cancel, retry *)

Definition workflowUrl (id : string) : string := "/api/workflows/" +:+ id.

Definition handleDeleteWorkflow (workflowId : string) (s : State) : State :=
  issue (DELETE (workflowUrl workflowId)) (KDelete workflowId (safeWorkflows s)) s.

Definition handleDeleteWorkflow_settled (workflowId : string)
    (captured : list Workflow.t) (o : Outcome Body) (s : State) : State :=
  match o with
  | Reject message => console_error "Delete workflow error:" message s
  | Respond false _ => s
  | Respond true _ =>
      setWorkflows (filter (λ w, Workflow.id w ≠ workflowId) captured) s
  end.

Definition handleCancelWorkflow (workflowId : string) (s : State) : State :=
  issue (POST (workflowUrl workflowId +:+ "/cancel")) KCancel s.

Definition handleCancelWorkflow_settled (o : Outcome Body) (s : State) : State :=
  match o with
  | Reject message => console_error "Cancel workflow error:" message s
  | Respond _ _ => handleRefresh s
  end.

Definition handleRetryWorkflow (workflowId : string) (s : State) : State :=
  issue (POST (workflowUrl workflowId +:+ "/retry")) KRetry s.

Definition handleRetryWorkflow_settled (o : Outcome Body) (s : State) : State :=
  match o with
  | Reject message => console_error "Retry workflow error:" message s
  | Respond _ _ => handleRefresh s
  end.

Definition resume (k : Continuation) (o : Outcome Body) (s : State) : State :=
  match k with
  | KLoad => loadWorkflows_settled o s
  | KDelete id captured => handleDeleteWorkflow_settled id captured o s
  | KCancel => handleCancelWorkflow_settled o s
  | KRetry => handleRetryWorkflow_settled o s
  end.

(** *** Render *)

Definition activeWorkflows (s : State) : list Workflow.t :=
  filter (λ w, Workflow.status w = "running" ∨ Workflow.status w = "pending")
    (safeWorkflows s).

Definition completedWorkflows (s : State) : list Workflow.t :=
  filter (λ w, Workflow.status w = "completed") (safeWorkflows s).

Definition failedWorkflows (s : State) : list Workflow.t :=
  filter (λ w, Workflow.status w = "failed") (safeWorkflows s).

(** The line under the title of an active card:
    [Step {workflow.currentStep + 1} of {workflow.totalSteps}]. *)
Definition stepLabel (w : Workflow.t) : string :=
  "Step " +:+ pretty (Workflow.currentStep w + 1)%Z
    +:+ " of " +:+ pretty (Workflow.totalSteps w).

(** [loading && safeWorkflows.length === 0]: the spinner replaces the page. *)
Definition showsSpinner (s : State) : bool :=
  loading s && bool_decide (length (safeWorkflows s) = 0).

(** The ids shown on the page. *)
Definition listed (s : State) : list string := Workflow.id <$> safeWorkflows s.

(** *** Events *)

Inductive Event :=
| Settled (rid : nat) (o : Outcome Body)
| ClickRefresh                 (* disabled while [loading] *)
| ClickCancel (row : nat)      (* on the row-th active card *)
| ClickRetry (row : nat)       (* on the row-th failed card *)
| ClickDelete (failed : bool) (row : nat)   (* on a completed or a failed card *)
| ConfirmDelete                (* [onConfirm] of the dialog *)
| CloseDialog.                 (* [onClose] of the dialog *)

Definition handle (e : Event) (s : State) : State :=
  match e with
  | Settled rid o =>
      match pending s !! rid with
      | Some k => resume k o (complete rid s)
      | None => s
      end
  | ClickRefresh =>
      if showsSpinner s || loading s then s else handleRefresh s
  | ClickCancel row =>
      if showsSpinner s then s else
      match activeWorkflows s !! row with
      | Some w => handleCancelWorkflow (Workflow.id w) s
      | None => s
      end
  | ClickRetry row =>
      if showsSpinner s then s else
      match failedWorkflows s !! row with
      | Some w => handleRetryWorkflow (Workflow.id w) s
      | None => s
      end
  | ClickDelete failed row =>
      if showsSpinner s then s else
      match (if failed then failedWorkflows s else completedWorkflows s) !! row with
      | Some w =>
          setConfirmDialog
            (Some {| isOpen := true; dialog_workflowId := Workflow.id w;
                     workflowTitle := Workflow.title w |}) s
      | None => s
      end
  | ConfirmDelete =>
      if showsSpinner s then s else
      match confirmDialog s with
      | Some d => handleDeleteWorkflow (dialog_workflowId d) s
      | None => s
      end
  | CloseDialog =>
      if showsSpinner s then s else setConfirmDialog None s
  end.

Definition step (s : State) (e : Event) : State := handle e s.

Definition run (s : State) (es : list Event) : State := foldl step s es.

Definition mount (initialWorkflows : option (list Workflow.t)) : State :=
  mountEffect (init initialWorkflows).

Inductive reachable : State → Prop :=
| reachable_mount ws : reachable (mount ws)
| reachable_step s e : reachable s → reachable (step s e).

(** The list loads in flight. *)
Definition loadsInFlight (s : State) : gmap nat Continuation :=
  filter (λ kv, kv.2 = KLoad) (pending s).


(** A load is outstanding exactly when [isLoadingRef] is set, there is
    never more than one, and request numbers in flight have been issued. *)
Record Inv (s : State) : Prop := {
  inv_loading :
    isLoadingRef s = true →
    ∃ r, pending s !! r = Some KLoad ∧ ∀ r', pending s !! r' = Some KLoad → r' = r;
  inv_idle : isLoadingRef s = false → ∀ r, pending s !! r ≠ Some KLoad;
  inv_issued : ∀ r, is_Some (pending s !! r) → r < length (requests s) }.

Definition sampleWorkflow (id status : string) : Workflow.t :=
  {| Workflow.id := id; Workflow.title := id; Workflow.description := None;
     Workflow.query := "q"; Workflow.status := status;
     Workflow.currentStep := 2; Workflow.totalSteps := 5;
     Workflow.sources := ["google"]; Workflow.outputFormat := "summary";
     Workflow.errorMessage := None; Workflow.createdAt := "2026-01-01T00:00:00Z";
     Workflow.completedAt := None; Workflow.report := None |}.

(** A library mounted with one running and one completed workflow: request
    0, the list load of the mount effect, is in flight. *)
Definition library_loading : State :=
  mount (Some [sampleWorkflow "wf_1" "running"; sampleWorkflow "wf_2" "completed"]).

End Library.

(** ** The rest of the tracker: unmount, footer, further invariants *)

Module ExecutorAux.
Import Executor.

(** Unmounting runs the cleanup the last effect run returned. *)
Definition unmount (s : State) : State := cleanup s.

(** The effect last ran with streaming over, an id and polling on only if
    its timer is still active. *)
Definition sched_inv (s : State) : Prop :=
  ∀ id, effectDeps s = Some (false, id, true) → id ≠ "" → timers s ≠ ∅.

(** Every request in flight has been issued. *)
Definition fresh_inv (s : State) : Prop :=
  ∀ rid, is_Some (pending s !! rid) → rid < length (requests s).

(** The message [fetchStatus] stores when its request does not end in a
    parsed body. *)
Definition failure_message (o : Outcome Body) : option string :=
  match o with
  | Reject message => Some message
  | Respond false _ => Some "Failed to fetch status"
  | Respond true (inl message) => Some message
  | Respond true (inr _) => None
  end.

(** The number after "Step" in the header. *)
Definition stepNumber (s : State) : nat :=
  Nat.min (completedCount s + 1) (totalSteps s).

(** The blocks of the footer, each under its own condition, in the order
    of the source. *)
Inductive FooterBlock :=
| ReportLink (label : string)       (* "Research complete! Report generated." *)
| AllStepsCompleted                 (* "All steps completed successfully!" *)
| Executing (completed total : nat) (* "Executing research steps...", c/n steps done *)
| Queued                            (* "Workflow queued, starting shortly..." *)
| Failure (message : string).       (* the message and a Retry button *)

(** [workflowStatus?.reportId] as a condition. *)
Definition hasReport (s : State) : bool :=
  match workflowStatus s with
  | Some w => Js.truthy_opt (WorkflowStatus.reportId w)
  | None => false
  end.

(** [workflowStatus.reportTitle || 'View Report'] *)
Definition reportLabel (s : State) : string :=
  match workflowStatus s with
  | Some w =>
      match WorkflowStatus.reportTitle w with
      | Some t => Js.or_string t "View Report"
      | None => "View Report"
      end
  | None => "View Report"
  end.

(** [workflowStatus?.errorMessage || 'Workflow failed'] *)
Definition failureMessage (s : State) : string :=
  match workflowStatus s with
  | Some w =>
      match WorkflowStatus.errorMessage w with
      | Some m => Js.or_string m "Workflow failed"
      | None => "Workflow failed"
      end
  | None => "Workflow failed"
  end.

Definition footer (s : State) : list FooterBlock :=
  (if String.eqb (status s) "completed" && hasReport s
   then [ReportLink (reportLabel s)] else [])
  ++ (if String.eqb (status s) "completed" && negb (hasReport s)
      then [AllStepsCompleted] else [])
  ++ (if String.eqb (status s) "running"
      then [Executing (completedCount s) (totalSteps s)] else [])
  ++ (if String.eqb (status s) "pending" then [Queued] else [])
  ++ (if String.eqb (status s) "failed" then [Failure (failureMessage s)] else []).

(** *** Sample states *)

(** [wf_1] mounted with two steps in its props, the first fetch in flight. *)
Definition wf1_with_props : State :=
  mount "wf_1"
    (Some [ InitialStep.mk 0 "search" "Search" None None;
            InitialStep.mk 1 "extract" "Extract" None (Some "") ])
    settled.

(** [wf_1] showing the five steps of [late_payload]. *)
Definition wf1_listing : State :=
  run wf1_polling [Settled 0 (Respond true (inr (JObject late_payload)))].

End ExecutorAux.

(** ** The rest of the library view: empty state, sections *)

Module LibraryAux.
Import Library.

(** [safeWorkflows.length === 0 && !loading]: the "No Workflows Yet" block. *)
Definition emptyState (s : State) : bool :=
  bool_decide (length (safeWorkflows s) = 0) && negb (loading s).

(** The statuses the three sections of the page select. *)
Definition sectioned (w : Workflow.t) : Prop :=
  Workflow.status w ∈ ["running"; "pending"; "completed"; "failed"].

(** The requests a turn of the event loop adds to the log. *)
Definition issued (s : State) (e : Event) : list Request :=
  drop (length (requests s)) (requests (step s e)).

(** *** Sample states *)

(** The list load of [library_loading] came back with three workflows, one
    of them with a status the page has no section for. *)
Definition library_loaded : State :=
  run library_loading
    [Settled 0 (Respond true (inr (Some
       [ sampleWorkflow "wf_1" "running"; sampleWorkflow "wf_2" "completed";
         sampleWorkflow "wf_3" "failed"; sampleWorkflow "wf_4" "cancelled" ])))].

(** Two deletes confirmed one after the other, before either has settled:
    request 1 deletes [wf_2], request 2 deletes [wf_3]. *)
Definition library_two_deletes : State :=
  run library_loaded
    [ClickDelete false 0; ConfirmDelete; ClickDelete true 0; ConfirmDelete].

(** Cancel clicked on the running card of [library_loaded]: request 1. *)
Definition library_cancelling : State := run library_loaded [ClickCancel 0].

End LibraryAux.

(** ** Properties of the tracker *)

Module ExecutorTheory.
Import Executor.

(** *** What the effect leaves alone *)

Lemma cleanup_frame s :
  workflowId (cleanup s) = workflowId s ∧ initialSteps (cleanup s) = initialSteps s
  ∧ streamStatus (cleanup s) = streamStatus s
  ∧ workflowStatus (cleanup s) = workflowStatus s
  ∧ expandedStep (cleanup s) = expandedStep s ∧ polling (cleanup s) = polling s
  ∧ error (cleanup s) = error s ∧ console (cleanup s) = console s
  ∧ requests (cleanup s) = requests s ∧ pending (cleanup s) = pending s
  ∧ intervalRef (cleanup s) = intervalRef s ∧ nextTimer (cleanup s) = nextTimer s.
Proof.
  unfold cleanup.
  destruct (effectCleanup s); [destruct (intervalRef s) eqn:E|];
    simpl; repeat split; done.
Qed.

Lemma effect_frame s :
  workflowId (effect s) = workflowId s ∧ initialSteps (effect s) = initialSteps s
  ∧ streamStatus (effect s) = streamStatus s
  ∧ workflowStatus (effect s) = workflowStatus s
  ∧ expandedStep (effect s) = expandedStep s ∧ polling (effect s) = polling s
  ∧ error (effect s) = error s ∧ console (effect s) = console s.
Proof.
  unfold effect, fetchStatus.
  destruct (isStreaming s || negb (Js.truthy (workflowId s))); simpl.
  - repeat split.
  - destruct (polling s) eqn:E; simpl; repeat split; done.
Qed.

Lemma commit_frame s :
  workflowId (commit s) = workflowId s ∧ initialSteps (commit s) = initialSteps s
  ∧ streamStatus (commit s) = streamStatus s
  ∧ workflowStatus (commit s) = workflowStatus s
  ∧ expandedStep (commit s) = expandedStep s ∧ polling (commit s) = polling s
  ∧ error (commit s) = error s ∧ console (commit s) = console s.
Proof.
  unfold commit. case_decide; [repeat split|].
  pose proof (effect_frame (cleanup s)) as He.
  pose proof (cleanup_frame s) as Hc.
  intuition congruence.
Qed.

Lemma isStreaming_commit s : isStreaming (commit s) = isStreaming s.
Proof. unfold isStreaming. by rewrite (proj1 (proj2 (proj2 (commit_frame s)))). Qed.

Lemma deps_commit s : deps (commit s) = deps s.
Proof.
  unfold deps. rewrite isStreaming_commit.
  pose proof (commit_frame s). intuition congruence.
Qed.

Lemma view_commit s : view (commit s) = view s.
Proof.
  pose proof (commit_frame s) as (Hid & Hst & Hss & Hw & Hx & Hp & He & Hc).
  unfold view, tracker, title, status, progress, completedCount, totalSteps, steps.
  rewrite isStreaming_commit, Hw, He, Hst, Hx. reflexivity.
Qed.

(** After a commit the effect has run with the current dependencies. *)
Lemma commit_flushed s : effectDeps (commit s) = Some (deps (commit s)).
Proof.
  rewrite deps_commit. unfold commit. case_decide; [done|].
  assert (deps (cleanup s) = deps s) as <-.
  { unfold deps, isStreaming. pose proof (cleanup_frame s). intuition congruence. }
  unfold effect.
  destruct (isStreaming (cleanup s) || negb (Js.truthy (workflowId (cleanup s)))); simpl; [done|].
  by destruct (polling (cleanup s)).
Qed.

Lemma commit_idle s : effectDeps s = Some (deps s) → commit s = s.
Proof. intros H. unfold commit. by rewrite decide_True. Qed.


(** *** The invariant is kept *)

(** Case analysis along [handle]: the event, then every test the handler
    makes on the way. *)
Ltac handle_cases e :=
  destruct e;
  unfold handle, resume, fetchStatus_settled, handleCancel_settled, handleRetry_settled;
  simpl; repeat (case_match; simpl); repeat split; try done.

Lemma truthy_true (x : string) : Js.truthy x = true ↔ x ≠ "".
Proof.
  unfold Js.truthy. destruct (String.eqb_spec x ""); simpl; split; congruence.
Qed.

Lemma isTerminal_spec (x : string) :
  isTerminal x = true ↔ x = "completed" ∨ x = "failed".
Proof.
  unfold isTerminal. rewrite orb_true_iff, !String.eqb_eq. tauto.
Qed.

Lemma handle_timers e s :
  timers (handle e s) = timers s ∧ intervalRef (handle e s) = intervalRef s
  ∧ effectDeps (handle e s) = effectDeps s
  ∧ effectCleanup (handle e s) = effectCleanup s
  ∧ nextTimer (handle e s) = nextTimer s.
Proof. handle_cases e. Qed.

Lemma cleanup_clears s : timer_inv s → timers (cleanup s) = ∅.
Proof.
  intros Ht. apply leibniz_equiv, elem_of_equiv_empty. intros h Hh.
  unfold cleanup in Hh.
  destruct (effectCleanup s) eqn:Ec.
  - destruct (intervalRef s) as [h'|] eqn:Er; simpl in Hh.
    + apply elem_of_difference in Hh as [Hin Hne].
      destruct (Ht h Hin) as [Hr _]. rewrite Er in Hr. set_solver.
    + destruct (Ht h Hh) as [Hr _]. congruence.
  - destruct (Ht h Hh) as [_ Hc]. congruence.
Qed.

Lemma commit_timers s :
  timer_inv s → active_inv s → timer_inv (commit s) ∧ active_inv (commit s).
Proof.
  intros Ht Ha. unfold commit. case_decide as Hd; [done|].
  pose proof (cleanup_clears s Ht) as Hc.
  remember (cleanup s) as c eqn:Ec. clear Ec Ht Ha Hd s.
  unfold effect, timer_inv, active_inv.
  destruct (isStreaming c || negb (Js.truthy (workflowId c))) eqn:Hg.
  - simpl. rewrite Hc. split; [intros h Hh; by apply elem_of_empty in Hh|intros Hne; done].
  - apply orb_false_iff in Hg as [Hs Hi].
    apply negb_false_iff, truthy_true in Hi.
    unfold fetchStatus. simpl.
    destruct (polling c) eqn:Hp; simpl; rewrite Hc.
    + split.
      * intros h Hh. split; [|done]. f_equal.
        apply elem_of_union in Hh as [Hh|Hh]; [|by apply elem_of_empty in Hh].
        by apply elem_of_singleton in Hh.
      * intros _. exists (workflowId c). split; [|done].
        unfold deps. by rewrite Hs, Hp.
    + split; [intros h Hh; by apply elem_of_empty in Hh|intros Hne; done].
Qed.

Lemma cleanup_quiet s : timers s = ∅ → cleanup s = s.
Proof.
  intros He. unfold cleanup. destruct (effectCleanup s); [|done].
  destruct (intervalRef s) as [h|]; [|done].
  destruct s; simpl in *; subst. unfold clearInterval; simpl. f_equal.
  apply leibniz_equiv, elem_of_equiv_empty. intros x Hx.
  apply elem_of_difference in Hx as [Hx _]. by apply elem_of_empty in Hx.
Qed.

Lemma commit_quiet s : quiet_inv s → quiet_inv (commit s).
Proof.
  intros Hq Hpre.
  pose proof (commit_frame s) as (Hid & _ & Hss & Hw & _ & Hp & He & _).
  rewrite isStreaming_commit, Hid in Hpre.
  destruct (Hq Hpre) as (Hr & Hpd & Hws & Her & Ht & Hpl).
  rewrite Hw, He, Hp. unfold commit. case_decide; [done|].
  rewrite (cleanup_quiet s Ht). unfold effect.
  assert (isStreaming s || negb (Js.truthy (workflowId s)) = true) as ->.
  { destruct Hpre as [->| ->]; [done|]. by rewrite orb_true_r. }
  done.
Qed.

Lemma view_quiet s :
  quiet_inv s → isStreaming s = true ∨ workflowId s = "" →
  view s = Preparing ∨
  ∃ t, view s = Main t ∧ cancelButton t = false ∧ retryButton t = false.
Proof.
  intros Hq Hpre. destruct (Hq Hpre) as (_ & _ & Hws & Her & _).
  unfold view. destruct (isStreaming s); [by left|right].
  rewrite Her. eexists. split; [done|].
  unfold tracker, status. simpl. by rewrite Hws.
Qed.

Lemma handle_quiet e s :
  lifecycle s e = true → quiet_inv s → quiet_inv (handle e s).
Proof.
  intros Hl Hq.
  destruct e as [id st|b|ss|h|rid o| | | |row]; simpl in *.
  - intros _. destruct (Hq (or_introl Hl)) as (? & ? & ? & ? & ? & ?). done.
  - intros Hpre.
    assert (isStreaming s = true ∨ workflowId s = "") as Hpre'.
    { destruct Hpre as [Hs|Hi]; [left|by right].
      unfold isStreaming in *. simpl in Hs.
      destruct b, (streamStatus s) as [[] []]; simpl in *; congruence. }
    destruct (Hq Hpre') as (? & ? & ? & ? & ? & ?). done.
  - done.
  - case_decide as Hin; [|done].
    intros Hpre. destruct (Hq Hpre) as (_ & _ & _ & _ & Ht & _).
    rewrite Ht in Hin. by apply elem_of_empty in Hin.
  - destruct (pending s !! rid) as [k|] eqn:Hk; [|done].
    intros Hpre.
    assert (isStreaming s = true ∨ workflowId s = "") as Hpre'.
    { revert Hpre. unfold isStreaming.
      destruct k, o as [m|[] [m|[| |d]]]; simpl; try done; destruct (isTerminal _); done. }
    destruct (Hq Hpre') as (_ & Hpd & _). rewrite Hpd in Hk. done.
  - intros Hpre.
    assert (isStreaming s = true ∨ workflowId s = "") as Hpre'.
    { revert Hpre. destruct (view s) as [| |t]; try done. by destruct (cancelButton t). }
    destruct (view_quiet s Hq Hpre') as [->|(t & -> & -> & _)]; by apply Hq.
  - intros Hpre.
    assert (isStreaming s = true ∨ workflowId s = "") as Hpre'.
    { revert Hpre. destruct (view s) as [| |t]; try done. by destruct (retryButton t). }
    destruct (view_quiet s Hq Hpre') as [->|(t & -> & _ & ->)]; by apply Hq.
  - intros Hpre.
    assert (isStreaming s = true ∨ workflowId s = "") as Hpre'.
    { revert Hpre. by destruct (view s). }
    destruct (view_quiet s Hq Hpre') as [->|(t & -> & _ & _)]; by apply Hq.
  - destruct (view s) as [| |t]; try done.
    destruct (rows t !! row); [|done]. exact Hq.
Qed.

Lemma handle_timer_invs e s :
  timer_inv s → active_inv s → timer_inv (handle e s) ∧ active_inv (handle e s).
Proof.
  intros Ht Ha. pose proof (handle_timers e s) as (H1 & H2 & H3 & H4 & _).
  unfold timer_inv, active_inv. rewrite H1, H2, H3, H4. done.
Qed.

Lemma step_Inv s e : Inv s → Inv (step s e).
Proof.
  intros [Ht Ha _]. unfold step.
  destruct (handle_timer_invs e s Ht Ha) as [Ht' Ha'].
  destruct (commit_timers _ Ht' Ha') as [Ht'' Ha''].
  split; [done|done|apply commit_flushed].
Qed.

Lemma mount_Inv id st ss : Inv (mount id st ss).
Proof.
  unfold mount.
  assert (timer_inv (init id st ss)) as Ht by (intros h; set_solver).
  assert (active_inv (init id st ss)) as Ha by (intros Hne; done).
  destruct (commit_timers _ Ht Ha) as [Ht' Ha'].
  split; [done|done|apply commit_flushed].
Qed.

Lemma reachable_Inv s : reachable s → Inv s.
Proof. induction 1; [apply mount_Inv|by apply step_Inv]. Qed.

(** *** The generated component *)

Lemma generated_reachable s : generated s → reachable s.
Proof. induction 1; by constructor. Qed.

Lemma generated_Inv s : generated s → Inv s.
Proof. intros Hg. by apply reachable_Inv, generated_reachable. Qed.

Lemma generated_quiet s : generated s → quiet_inv s.
Proof.
  induction 1 as [id st ss|s e _ IH Hl].
  - apply commit_quiet. intros _. done.
  - by apply commit_quiet, handle_quiet.
Qed.


(** *** Polling and the timer *)

Lemma timer_runs_only_when_polling s :
  Inv s → timers s ≠ ∅ →
  isStreaming s = false ∧ workflowId s ≠ "" ∧ polling s = true.
Proof.
  intros [_ Ha Hf] Hne. destruct (Ha Hne) as (id & Hd & Hid).
  rewrite Hf in Hd. unfold deps in Hd. by simplify_eq.
Qed.

Lemma timers_off s : Inv s → polling s = false → timers s = ∅.
Proof.
  intros HI Hp. destruct (decide (timers s = ∅)) as [|Hne]; [done|].
  destruct (timer_runs_only_when_polling s HI Hne) as (_ & _ & ?). congruence.
Qed.

Lemma polling_handle s e :
  polling (handle e s) =
    match e with
    | Settled rid o =>
        match pending s !! rid, o with
        | Some KStatus, Respond true (inr (JObject data)) =>
            if isTerminal (WorkflowStatus.status data) then false else polling s
        | Some (KRetry _), Respond _ _ => true
        | _, _ => polling s
        end
    | _ => polling s
    end.
Proof. handle_cases e. Qed.

Lemma polling_step s e : polling (step s e) = polling (handle e s).
Proof. unfold step. by destruct (commit_frame (handle e s)) as (_&_&_&_&_&->&_). Qed.

Lemma polling_stays_off s e :
  polling s = false → retry_resolves s e = false → polling (step s e) = false.
Proof.
  intros Hp Hr. rewrite polling_step, polling_handle.
  destruct e as [id st|b|ss|h|rid o| | | |row]; try done.
  simpl in Hr. destruct (pending s !! rid) as [[]|], o as [m|[] [m|[| |d]]]; try done.
  by destruct (isTerminal _).
Qed.

Lemma timer_tick_idle s h : Inv s → timers s = ∅ → step s (TimerFired h) = s.
Proof.
  intros HI Ht. unfold step. simpl. rewrite Ht.
  rewrite decide_False by apply not_elem_of_empty. apply commit_idle, HI.
Qed.

Lemma polling_off_run s es :
  Inv s → polling s = false → without_retry s es →
  polling (run s es) = false ∧ timers (run s es) = ∅
  ∧ ∀ h, step (run s es) (TimerFired h) = run s es.
Proof.
  revert s. induction es as [|e es IH]; intros s HI Hp Hw; simpl.
  - pose proof (timers_off s HI Hp). split_and!; [done..|].
    intros h. by apply timer_tick_idle.
  - destruct Hw as [Hr Hw]. apply IH; [by apply step_Inv| |done].
    by apply polling_stays_off.
Qed.

Lemma workflowStatus_step s e :
  workflowStatus (step s e) =
    match e with
    | Settled rid (Respond true (inr data)) =>
        match pending s !! rid with
        | Some KStatus => cached data
        | _ => workflowStatus s
        end
    | _ => workflowStatus s
    end.
Proof.
  unfold step. destruct (commit_frame (handle e s)) as (_&_&_&->&_).
  handle_cases e.
Qed.

(** C1.  A fetched status that is 'completed' or 'failed' settles the
    tracker in the very turn it is applied: the snapshot is cached, the
    polling flag is off and no interval timer is active.  From then on a
    timer callback finds nothing to do, and as long as no retry command
    comes back resolved the flag stays off and no timer is active. *)
Theorem terminal_status_stops_polling s rid data :
  reachable s →
  pending s !! rid = Some KStatus →
  isTerminal (WorkflowStatus.status data) = true →
  let s' := step s (Settled rid (Respond true (inr (JObject data)))) in
  workflowStatus s' = Some data ∧ polling s' = false ∧ timers s' = ∅
  ∧ (∀ es, without_retry s' es →
       polling (run s' es) = false ∧ timers (run s' es) = ∅
       ∧ ∀ h, step (run s' es) (TimerFired h) = run s' es).
Proof.
  intros Hr Hk Ht s'.
  assert (Inv s') as HI by (apply step_Inv, reachable_Inv, Hr).
  assert (polling s' = false) as Hp.
  { unfold s'. rewrite polling_step, polling_handle, Hk, Ht. done. }
  split_and!.
  - unfold s'. by rewrite workflowStatus_step, Hk.
  - done.
  - by apply timers_off.
  - intros es Hw. by apply polling_off_run.
Qed.


(** *** The effect re-running *)

Lemma commit_rerun s :
  timers s = ∅ → effectDeps s ≠ Some (deps s) →
  isStreaming s = false → workflowId s ≠ "" →
  commit s =
    setEffect (deps s) true
      (if polling s then setInterval (fetchStatus (workflowId s) s)
       else fetchStatus (workflowId s) s).
Proof.
  intros Ht Hd Hs Hi. unfold commit. rewrite decide_False by done.
  rewrite (cleanup_quiet s Ht). unfold effect. rewrite Hs.
  apply truthy_true in Hi. rewrite Hi. simpl. done.
Qed.


Lemma reachable_run s es : reachable s → reachable (run s es).
Proof.
  revert s. induction es as [|e es IH]; intros s Hr; [done|].
  simpl. apply IH. by constructor.
Qed.

(** C5.  While the response is still streaming, or while the workflow id
    is empty, no interval timer is active and the effect, were it to run,
    would issue no request and start no timer, whatever the parent and the
    stream hook do; a timer is active only once streaming has ended and
    the id is non-empty.  In the [generated] component, moreover, no
    request has been issued and none is in flight in such a state, and
    when the stream settles with a non-empty id, the first status request
    is issued and the timer started. *)
Theorem no_polling_before_stream_settles s :
  reachable s →
  (isStreaming s = true ∨ workflowId s = "" →
     timers s = ∅ ∧ requests (effect s) = requests s ∧ timers (effect s) = ∅)
  ∧ (timers s ≠ ∅ → isStreaming s = false ∧ workflowId s ≠ "")
  ∧ (generated s →
     (isStreaming s = true ∨ workflowId s = "" →
        requests s = [] ∧ pending s = ∅ ∧ timers s = ∅
        ∧ requests (effect s) = [] ∧ timers (effect s) = ∅)
     ∧ (∀ success, isStreaming s = true → workflowId s ≠ "" →
          let s' := step s (StreamSettled success) in
          isStreaming s' = false
          ∧ requests s' = [GET (statusUrl (workflowId s))]
          ∧ timers s' = {[nextTimer s]})).
Proof.
  intros Hr. pose proof (reachable_Inv s Hr) as HI.
  assert (isStreaming s = true ∨ workflowId s = "" → timers s = ∅
          ∧ effect s = setEffect (deps s) false s) as Hgen.
  { intros Hpre. split.
    - destruct (decide (timers s = ∅)) as [|Hne]; [done|].
      destruct (timer_runs_only_when_polling s HI Hne) as (Hs & Hi & _).
      destruct Hpre; congruence.
    - unfold effect.
      assert (isStreaming s || negb (Js.truthy (workflowId s)) = true) as ->;
        [destruct Hpre as [->| ->]; [done|by rewrite orb_true_r]|done]. }
  split_and!.
  - intros Hpre. destruct (Hgen Hpre) as [Ht ->]. done.
  - intros Hne. destruct (timer_runs_only_when_polling s HI Hne) as (? & ? & _). done.
  - intros Hg. pose proof (generated_quiet s Hg) as HQ. split.
    + intros Hpre. destruct (HQ Hpre) as (Hq & Hpd & _ & _ & Ht & _).
      destruct (Hgen Hpre) as [_ ->]. done.
    + intros b Hs Hi s'.
      destruct (HQ (or_introl Hs)) as (Hq & Hpd & _ & _ & Ht & Hp).
      pose proof (inv_flushed s HI) as Hf.
      set (s1 := handle (StreamSettled b) s).
      assert (isStreaming s1 = false) as Hs1.
      { unfold s1, isStreaming. simpl. destruct b; simpl; [done|]. apply andb_false_r. }
      unfold s', step. fold s1.
      rewrite commit_rerun; [| done | | done | done].
      * assert (polling s1 = true) as -> by done.
        unfold isStreaming. simpl. split; [exact Hs1|].
        rewrite Hq, Ht. split; [done|]. apply leibniz_equiv, (right_id _ _).
      * change (effectDeps s1) with (effectDeps s). rewrite Hf.
        unfold deps. rewrite Hs, Hs1. congruence.
Qed.


(** *** Cancel *)

Lemma untouched_refl s : untouched s s.
Proof. by repeat split. Qed.

Lemma untouched_trans s1 s2 s3 : untouched s1 s2 → untouched s2 s3 → untouched s1 s3.
Proof. unfold untouched. intros (?&?&?&?&?) (?&?&?&?&?). split_and!; congruence. Qed.

Lemma untouched_issue r k s : untouched s (issue r k s).
Proof. by repeat split. Qed.

Lemma untouched_complete rid s : untouched s (complete rid s).
Proof. by repeat split. Qed.

Lemma untouched_console_error l m s : untouched s (console_error l m s).
Proof. by repeat split. Qed.

Lemma cancel_event_handle s e :
  cancel_event s e = true → untouched s (handle e s) ∧ deps (handle e s) = deps s.
Proof.
  destruct e as [id st|b|ss|h|rid o| | | |row]; simpl; try done.
  - destruct (pending s !! rid) as [[]|]; try done. intros _.
    destruct o as [m|ok body]; simpl; by repeat split.
  - intros _. destruct (view s) as [| |t]; try by repeat split.
    destruct (cancelButton t); by repeat split.
Qed.

Lemma cancel_event_step s e :
  Inv s → cancel_event s e = true → step s e = handle e s ∧ untouched s (step s e).
Proof.
  intros HI Hc. destruct (cancel_event_handle s e Hc) as [Hu Hd].
  assert (step s e = handle e s) as ->; [|done].
  apply commit_idle. destruct (handle_timers e s) as (_ & _ & -> & _).
  rewrite Hd. apply HI.
Qed.

Lemma only_cancel_run s es : Inv s → only_cancel s es → untouched s (run s es).
Proof.
  revert s. induction es as [|e es IH]; intros s HI Hc; simpl.
  - apply untouched_refl.
  - destruct Hc as [He Hc]. destruct (cancel_event_step s e HI He) as [_ Hu].
    eapply untouched_trans; [exact Hu|]. apply IH; [by apply step_Inv|done].
Qed.

Lemma polling_turns_off s e :
  polling s = true → polling (step s e) = false →
  ∃ rid data,
    e = Settled rid (Respond true (inr (JObject data))) ∧ pending s !! rid = Some KStatus
    ∧ isTerminal (WorkflowStatus.status data) = true.
Proof.
  intros Hp. rewrite polling_step, polling_handle.
  destruct e as [id st|b|ss|h|rid o| | | |row]; try congruence.
  destruct (pending s !! rid) as [[]|] eqn:Hk, o as [m|[] [m|[| |d]]]; try congruence.
  destruct (isTerminal _) eqn:Ht; [|congruence]. intros _. by exists rid, d.
Qed.

(** C4.  A cancel action leaves the cached status, the polling flag, the
    error, the active timer and the screen as they were: the click only
    issues the POST; when the POST resolves, one status request is issued;
    when it rejects, the failure is logged and nothing else happens.  The
    re-render after a cancel event does not re-run the effect.  Any number
    of cancel actions in a row leaves them as they were too, and polling is
    switched off by nothing but a fetched terminal status. *)
Theorem cancel_leaves_status_and_polling s :
  reachable s →
  (let s1 := handleCancel s in
     untouched s s1 ∧ requests s1 = requests s ++ [POST (cancelUrl (workflowId s))]
     ∧ console s1 = console s)
  ∧ (∀ id ok body,
       let s1 := handleCancel_settled id (Respond ok body) s in
       untouched s s1 ∧ requests s1 = requests s ++ [GET (statusUrl id)]
       ∧ console s1 = console s)
  ∧ (∀ id m,
       let s1 := handleCancel_settled id (Reject m) s in
       untouched s s1 ∧ requests s1 = requests s
       ∧ console s1 = console s ++ [("Cancel failed:", m)])
  ∧ (∀ e, cancel_event s e = true → step s e = handle e s)
  ∧ (∀ es, only_cancel s es → untouched s (run s es))
  ∧ (∀ e, polling s = true → polling (step s e) = false →
       ∃ rid data,
         e = Settled rid (Respond true (inr (JObject data))) ∧ pending s !! rid = Some KStatus
         ∧ isTerminal (WorkflowStatus.status data) = true).
Proof.
  intros Hr. split_and!.
  - by repeat split.
  - intros id ok body. by repeat split.
  - intros id m. by repeat split.
  - intros e He. by destruct (cancel_event_step s e (reachable_Inv s Hr) He).
  - intros es. apply only_cancel_run, reachable_Inv, Hr.
  - intros e. apply polling_turns_off.
Qed.

(** *** Retry *)



(** *** Out-of-order responses *)

Lemma pending_commit_KStatus s r :
  pending s !! r = Some KStatus → pending (commit s) !! r = Some KStatus.
Proof.
  intros Hk. unfold commit. case_decide; [done|].
  destruct (cleanup_frame s) as (_&_&_&_&_&_&_&_&_&Hpd&_).
  unfold effect.
  destruct (isStreaming (cleanup s) || negb (Js.truthy (workflowId (cleanup s)))); simpl.
  - by rewrite Hpd.
  - assert (∀ x, pending (fetchStatus x (cleanup s)) !! r = Some KStatus) as Hx.
    { intros x. simpl. rewrite lookup_insert. case_decide; [done|]. by rewrite Hpd. }
    destruct (polling (cleanup s)); exact (Hx _).
Qed.

(** C7 (as the code has it).  A successful status response is stored
    whichever request it answers and whatever is cached; so of two
    responses the one that resolves last is the one left in the cache,
    also when its request was issued first. *)
Theorem last_resolved_response_wins s r1 r2 d1 d2 :
  pending s !! r1 = Some KStatus → pending s !! r2 = Some KStatus → r1 ≠ r2 →
  workflowStatus (step s (Settled r2 (Respond true (inr (JObject d2))))) = Some d2
  ∧ workflowStatus
      (run s [Settled r2 (Respond true (inr (JObject d2)));
              Settled r1 (Respond true (inr (JObject d1)))])
    = Some d1.
Proof.
  intros H1 H2 Hne. split.
  - by rewrite workflowStatus_step, H2.
  - simpl. rewrite workflowStatus_step.
    assert (pending (step s (Settled r2 (Respond true (inr (JObject d2))))) !! r1 = Some KStatus)
      as ->; [|done].
    unfold step. apply pending_commit_KStatus. simpl. rewrite H2. simpl.
    assert (delete r2 (pending s) !! r1 = Some KStatus) as Hd
      by (by rewrite lookup_delete_ne).
    by destruct (isTerminal _).
Qed.


(** *** The progress header *)

(** C2 (as the code has it).  The header of the tracker counts the steps
    of the cached list: it shows the number of completed steps plus one,
    capped by the number of steps, "of" the number of steps; with five
    steps of which two are completed that is "Step 3 of 5".  The active
    card of the library shows [currentStep + 1] of [totalSteps]. *)
Theorem header_counts_completed_steps s w (wf : Library.Workflow.t) :
  workflowStatus s = Some w →
  (let n := length (WorkflowStatus.steps w) in
   let c := length (filter (λ st, StepStatus.status st = "completed")
                      (WorkflowStatus.steps w)) in
   stepLabel (tracker s) = "Step " +:+ pretty (Nat.min (c + 1) n) +:+ " of " +:+ pretty n
   ∧ (n = 5 → c = 2 → stepLabel (tracker s) = "Step 3 of 5"))
  ∧ (Library.Workflow.currentStep wf = 2%Z → Library.Workflow.totalSteps wf = 5%Z →
     Library.stepLabel wf = "Step 3 of 5").
Proof.
  intros Hw. split.
  - assert (stepLabel (tracker s) =
      "Step " +:+ pretty (Nat.min (length (filter (λ st, StepStatus.status st = "completed")
                      (WorkflowStatus.steps w)) + 1) (length (WorkflowStatus.steps w)))
        +:+ " of " +:+ pretty (length (WorkflowStatus.steps w))) as Hl.
    { unfold tracker, completedCount, totalSteps, steps. simpl. by rewrite Hw. }
    split; [exact Hl|].
    intros Hn Hc. rewrite Hl. simpl in Hn, Hc. rewrite Hn, Hc. reflexivity.
  - intros Hc Ht. unfold Library.stepLabel. rewrite Hc, Ht. reflexivity.
Qed.

(** *** The step renderer *)

Lemma stepIcon_fallback type :
  stepIcons !! type = None → type ∉ Js.objectPrototype →
  stepIcon type = Js.Own FileText.
Proof.
  intros Hown Hproto. unfold stepIcon, Js.get_or, Js.get. rewrite Hown.
  by rewrite bool_decide_eq_false_2.
Qed.

(** C8, at the type "constructor".  It is not one of the five step types,
    yet the lookup does not come back undefined: the table is an object
    literal and the read finds [Object.prototype.constructor].  The
    fallback is not taken and the icon handed to the row is not
    [FileText]. *)
Theorem stepIcon_inherited_key :
  stepIcons !! "constructor" = None
  ∧ stepIcon "constructor" = Js.Inherited "constructor"
  ∧ StepIcon (renderStep None (sampleStep 0 "constructor" "pending")) ≠ Js.Own FileText.
Proof. split_and!; [reflexivity..|]. vm_compute. discriminate. Qed.


(** *** The theorems at work on [wf_1] *)

Lemma terminal_status_stops_polling_witness :
  reachable wf1_polling
  ∧ pending wf1_polling !! 0 = Some KStatus
  ∧ isTerminal (WorkflowStatus.status (snapshot "completed" 4 4 100 [])) = true
  ∧ let s' := step wf1_polling
                (Settled 0 (Respond true (inr (JObject (snapshot "completed" 4 4 100 []))))) in
    workflowStatus s' = Some (snapshot "completed" 4 4 100 [])
    ∧ polling s' = false ∧ timers s' = ∅
    ∧ (∀ es, without_retry s' es →
         polling (run s' es) = false ∧ timers (run s' es) = ∅
         ∧ ∀ h, step (run s' es) (TimerFired h) = run s' es).
Proof.
  assert (reachable wf1_polling) as Hr by apply reachable_mount.
  split_and!; [exact Hr|reflexivity|reflexivity|].
  apply (terminal_status_stops_polling wf1_polling 0 (snapshot "completed" 4 4 100 []) Hr);
    reflexivity.
Defined.

Lemma no_polling_before_stream_settles_witness :
  let s := mount "wf_1" None streaming in
  reachable s ∧ generated s ∧ isStreaming s = true
  ∧ requests s = [] ∧ pending s = ∅ ∧ timers s = ∅
  ∧ requests (effect s) = [] ∧ timers (effect s) = ∅
  ∧ (∀ success,
       let s' := step s (StreamSettled success) in
       isStreaming s' = false
       ∧ requests s' = [GET (statusUrl (workflowId s))]
       ∧ timers s' = {[nextTimer s]}).
Proof.
  intros s.
  assert (reachable s) as Hr by apply reachable_mount.
  assert (generated s) as Hg by apply generated_mount.
  assert (isStreaming s = true) as Hs by reflexivity.
  destruct (no_polling_before_stream_settles s Hr) as (_ & _ & H).
  destruct (H Hg) as (Hq & Hsettle).
  destruct (Hq (or_introl Hs)) as (? & ? & ? & ? & ?).
  split_and!; [done..|].
  intros success. by apply Hsettle.
Defined.


Lemma cancel_leaves_status_and_polling_witness :
  reachable wf1_running
  ∧ untouched wf1_running (run wf1_running
      [ClickCancel; Settled 2 (Respond true noBody);
       ClickCancel; Settled 4 (Reject "Failed to fetch")]).
Proof.
  assert (reachable wf1_running) as Hr by (apply reachable_run, reachable_mount).
  split; [exact Hr|].
  destruct (cancel_leaves_status_and_polling wf1_running Hr) as (_ & _ & _ & _ & Hes & _).
  apply Hes. vm_compute. done.
Defined.


Lemma last_resolved_response_wins_witness :
  let s := wf1_two_in_flight in
  let a := snapshot "running" 0 4 10 [] in
  let b := snapshot "running" 2 4 50 [] in
  pending s !! 0 = Some KStatus ∧ pending s !! 1 = Some KStatus ∧ 0 ≠ 1
  ∧ workflowStatus (step s (Settled 1 (Respond true (inr (JObject b))))) = Some b
  ∧ workflowStatus
      (run s [Settled 1 (Respond true (inr (JObject b)));
              Settled 0 (Respond true (inr (JObject a)))])
    = Some a.
Proof.
  intros s a b. split_and!; [reflexivity|reflexivity|lia|..];
    apply (last_resolved_response_wins s 0 1 a b); (reflexivity || lia).
Defined.

Lemma header_counts_completed_steps_witness :
  let w := snapshot "running" 2 5 40
    [ sampleStep 0 "search" "completed"; sampleStep 1 "extract" "completed";
      sampleStep 2 "analyze" "running"; sampleStep 3 "aggregate" "pending";
      sampleStep 4 "generate_report" "pending" ] in
  let s := run wf1_polling [Settled 0 (Respond true (inr (JObject w)))] in
  workflowStatus s = Some w ∧ stepLabel (tracker s) = "Step 3 of 5".
Proof.
  intros w s. split; [reflexivity|].
  destruct (header_counts_completed_steps s w
              (Library.Workflow.mk "wf_1" "" None "" "running" 2 5 [] "" None "" None None)
              eq_refl) as [[_ H] _].
  apply H; reflexivity.
Defined.

(** *** Where the code departs from the specification *)

(** C2 at [late_payload]: [currentStep = 2] and [totalSteps = 5], and the
    header reads "Step 4 of 5". *)
Lemma header_ignores_currentStep :
  let s := run wf1_polling [Settled 0 (Respond true (inr (JObject late_payload)))] in
  WorkflowStatus.currentStep late_payload = 2%Z
  ∧ WorkflowStatus.totalSteps late_payload = 5%Z
  ∧ workflowStatus s = Some late_payload
  ∧ view s = Main (tracker s)
  ∧ stepLabel (tracker s) = "Step 4 of 5"
  ∧ stepLabel (tracker s) ≠ "Step 3 of 5".
Proof. vm_compute. split_and!; (reflexivity || discriminate). Qed.



(** C7 on [wf1_two_in_flight]: request 1 was issued after request 0 and
    resolves first; when request 0 resolves, its older body replaces the
    newer one. *)
Lemma stale_response_overwrites_newer :
  let a := snapshot "running" 0 4 10 [] in
  let b := snapshot "running" 2 4 50 [] in
  let es := [Settled 1 (Respond true (inr (JObject b)));
             Settled 0 (Respond true (inr (JObject a)))] in
  requests wf1_two_in_flight
    = [GET "/api/workflows/wf_1/status"; GET "/api/workflows/wf_1/status"]
  ∧ spec_latest_issued es = Some b
  ∧ workflowStatus (run wf1_two_in_flight es) = Some a
  ∧ workflowStatus (run wf1_two_in_flight es) ≠ spec_latest_issued es.
Proof. vm_compute. split_and!; (reflexivity || discriminate). Qed.

End ExecutorTheory.

(** ** Properties of the library view *)

Module LibraryTheory.
Import Library.

Lemma size_at_most_one {A} (m : gmap nat A) :
  (∀ i j x y, m !! i = Some x → m !! j = Some y → i = j) → size m ≤ 1.
Proof.
  induction m as [|i x m Hi _] using map_ind; intros Hu.
  - rewrite map_size_empty. lia.
  - assert (m = ∅) as ->.
    { apply map_empty. intros j. destruct (m !! j) as [y|] eqn:Hj; [|done].
      assert (j = i) as ->.
      { apply (Hu j i y x); [|apply lookup_insert_eq].
        rewrite lookup_insert_ne; [done|]. intros ->. congruence. }
      congruence. }
    rewrite map_size_insert_None, map_size_empty by done. lia.
Qed.

Lemma loadsInFlight_lookup s r k :
  loadsInFlight s !! r = Some k ↔ pending s !! r = Some KLoad ∧ k = KLoad.
Proof.
  unfold loadsInFlight. rewrite map_lookup_filter_Some. simpl.
  split; [intros [? ->]|intros [? ->]]; done.
Qed.

Lemma Inv_issue r k s : Inv s → k ≠ KLoad → Inv (issue r k s).
Proof.
  intros [Hl Hi Hf] Hk. split; simpl.
  - intros Hb. destruct (Hl Hb) as (r0 & Hr0 & Hu). exists r0.
    assert (r0 ≠ length (requests s)) as Hne.
    { intros ->. specialize (Hf (length (requests s))). rewrite Hr0 in Hf.
      specialize (Hf (mk_is_Some _ _ eq_refl)). lia. }
    split; [by rewrite lookup_insert_ne|].
    intros r'. rewrite lookup_insert. case_decide; [congruence|]. apply Hu.
  - intros Hb r'. rewrite lookup_insert. case_decide; [congruence|]. by apply Hi.
  - intros r'. rewrite lookup_insert, length_app. simpl. case_decide; [lia|].
    intros H'. specialize (Hf r' H'). lia.
Qed.

Lemma Inv_complete rid k s :
  Inv s → pending s !! rid = Some k → k ≠ KLoad → Inv (complete rid s).
Proof.
  intros [Hl Hi Hf] Hk Hne. split; simpl.
  - intros Hb. destruct (Hl Hb) as (r0 & Hr0 & Hu). exists r0.
    split.
    + rewrite lookup_delete_ne; [done|]. intros ->. congruence.
    + intros r'. rewrite lookup_delete. case_decide; [done|]. apply Hu.
  - intros Hb r'. rewrite lookup_delete. case_decide; [done|]. by apply Hi.
  - intros r'. rewrite lookup_delete. case_decide; [by intros []|]. apply Hf.
Qed.

(** Setters that leave the refs, the requests and the in-flight table
    alone keep the invariant. *)
Lemma Inv_frame s s' :
  isLoadingRef s' = isLoadingRef s → pending s' = pending s →
  requests s' = requests s → Inv s → Inv s'.
Proof. intros H1 H2 H3 [Hl Hi Hf]. split; rewrite ?H1, ?H2, ?H3; done. Qed.

Lemma Inv_loadWorkflows s : Inv s → Inv (loadWorkflows s).
Proof.
  intros HI. unfold loadWorkflows. destruct (isLoadingRef s) eqn:Hb; [done|].
  destruct HI as [Hl Hi Hf]. split; simpl.
  - intros _. exists (length (requests s)). split; [apply lookup_insert_eq|].
    intros r'. rewrite lookup_insert. case_decide; [done|]. intros Hr'.
    by destruct (Hi Hb r').
  - done.
  - intros r'. rewrite lookup_insert, length_app. simpl. case_decide; [lia|].
    intros H'. specialize (Hf r' H'). lia.
Qed.

Lemma Inv_handleRefresh s : Inv s → Inv (handleRefresh s).
Proof. intros HI. apply Inv_loadWorkflows. by eapply Inv_frame; [..|exact HI]. Qed.

Lemma Inv_load_settled rid o s :
  Inv s → pending s !! rid = Some KLoad → Inv (loadWorkflows_settled o (complete rid s)).
Proof.
  intros [Hl Hi Hf] Hk.
  assert (isLoadingRef s = true) as Hb.
  { destruct (isLoadingRef s) eqn:Hb; [done|]. by destruct (Hi eq_refl rid). }
  destruct (Hl Hb) as (r0 & Hr0 & Hu).
  assert (∀ r, delete rid (pending s) !! r ≠ Some KLoad) as Hnone.
  { intros r. rewrite lookup_delete. case_decide; [done|].
    intros Hr. rewrite (Hu r Hr), <-(Hu rid Hk) in *. done. }
  assert (∀ r, is_Some (delete rid (pending s) !! r) → r < length (requests s)) as Hf'.
  { intros r. rewrite lookup_delete. case_decide; [by intros []|]. apply Hf. }
  split; destruct o as [m|[] [m|d]]; simpl; done.
Qed.

Lemma library_step_Inv s e : Inv s → Inv (step s e).
Proof.
  intros HI. unfold step.
  destruct e as [rid o| |row|row|f row| |]; simpl.
  - destruct (pending s !! rid) as [k|] eqn:Hk; [|done].
    destruct k as [|id ws| |]; simpl.
    + by apply Inv_load_settled.
    + assert (Inv (complete rid s)) as HI' by (by eapply Inv_complete).
      destruct o as [m|[] body]; simpl; [|by eapply Inv_frame; [..|exact HI']|done].
      by eapply Inv_frame; [..|exact HI'].
    + assert (Inv (complete rid s)) as HI' by (by eapply Inv_complete).
      destruct o as [m|ok body]; simpl; [by eapply Inv_frame; [..|exact HI']|].
      by apply Inv_handleRefresh.
    + assert (Inv (complete rid s)) as HI' by (by eapply Inv_complete).
      destruct o as [m|ok body]; simpl; [by eapply Inv_frame; [..|exact HI']|].
      by apply Inv_handleRefresh.
  - destruct (showsSpinner s || loading s); [done|]. by apply Inv_handleRefresh.
  - destruct (showsSpinner s); [done|].
    destruct (activeWorkflows s !! row); [|done]. by apply Inv_issue.
  - destruct (showsSpinner s); [done|].
    destruct (failedWorkflows s !! row); [|done]. by apply Inv_issue.
  - destruct (showsSpinner s); [done|].
    destruct ((if f then failedWorkflows s else completedWorkflows s) !! row); [|done].
    by eapply Inv_frame; [..|exact HI].
  - destruct (showsSpinner s); [done|].
    destruct (confirmDialog s); [|done]. by apply Inv_issue.
  - destruct (showsSpinner s); [done|]. by eapply Inv_frame; [..|exact HI].
Qed.

Lemma library_mount_Inv ws : Inv (mount ws).
Proof.
  unfold mount, mountEffect. simpl. apply Inv_loadWorkflows.
  split; simpl; [done|intros _ r; by rewrite lookup_empty|].
  intros r. rewrite lookup_empty. by intros [].
Qed.

Lemma library_reachable_Inv s : reachable s → Inv s.
Proof. induction 1; [apply library_mount_Inv|by apply library_step_Inv]. Qed.

Lemma library_reachable_run s es : reachable s → reachable (run s es).
Proof.
  revert s. induction es as [|e es IH]; intros s Hr; [done|].
  simpl. apply IH. by constructor.
Qed.

(** C9.  At most one list load is in flight.  While one is, a call of
    [loadWorkflows] returns the state as it is: no request is issued and
    nothing is parked; a refresh then only resets [hasLoadedRef].  The
    mount effect issues the one load of a fresh view. *)
Theorem single_list_load_in_flight s :
  reachable s →
  size (loadsInFlight s) ≤ 1
  ∧ (loadsInFlight s ≠ ∅ →
       loadWorkflows s = s
       ∧ requests (handleRefresh s) = requests s
       ∧ pending (handleRefresh s) = pending s)
  ∧ (∀ ws, requests (mount ws) = [GET "/api/workflows"]
           ∧ pending (mount ws) = {[0 := KLoad]}).
Proof.
  intros Hr. pose proof (library_reachable_Inv s Hr) as [Hl Hi Hf]. split_and!.
  - apply size_at_most_one. intros i j x y Hx Hy.
    apply loadsInFlight_lookup in Hx as [Hx _], Hy as [Hy _].
    destruct (isLoadingRef s) eqn:Hb.
    + destruct (Hl eq_refl) as (r0 & _ & Hu). by rewrite (Hu i Hx), (Hu j Hy).
    + by destruct (Hi eq_refl i).
  - intros Hne. apply map_choose in Hne as (r & k & Hk).
    apply loadsInFlight_lookup in Hk as [Hk _].
    assert (isLoadingRef s = true) as Hb.
    { destruct (isLoadingRef s) eqn:Hb; [done|]. by destruct (Hi eq_refl r). }
    unfold handleRefresh, loadWorkflows. simpl. by rewrite Hb.
  - intros ws. split; reflexivity.
Qed.

(** C6.  The delete handler issues the DELETE and leaves the list as it
    is.  When that request settles, however late: if it rejects, or the
    response is not ok, the list stays as it is; if the response is ok, the
    list becomes the list of the click without the workflows of that id. *)
Theorem delete_removes_after_success s0 id s :
  let rid := length (requests s0) in
  let s1 := handleDeleteWorkflow id s0 in
  (workflows s1 = workflows s0
   ∧ requests s1 = requests s0 ++ [DELETE (workflowUrl id)]
   ∧ pending s1 !! rid = Some (KDelete id (safeWorkflows s0)))
  ∧ (pending s !! rid = Some (KDelete id (safeWorkflows s0)) →
       (∀ m, workflows (step s (Settled rid (Reject m))) = workflows s)
       ∧ (∀ body, workflows (step s (Settled rid (Respond false body))) = workflows s)
       ∧ (∀ body,
            let s2 := step s (Settled rid (Respond true body)) in
            safeWorkflows s2 = filter (λ w, Workflow.id w ≠ id) (safeWorkflows s0)
            ∧ (id ∉ listed s2)
            ∧ (∀ x, x ≠ id → x ∈ listed s0 → x ∈ listed s2))).
Proof.
  intros rid s1. split.
  - split_and!; [done..|]. apply lookup_insert_eq.
  - intros Hk. split; [|split].
    + intros m. unfold step. simpl. by rewrite Hk.
    + intros body. unfold step. simpl. by rewrite Hk.
    + intros body s2.
      assert (safeWorkflows s2 = filter (λ w, Workflow.id w ≠ id) (safeWorkflows s0)) as Hs2.
      { unfold s2, step. simpl. by rewrite Hk. }
      unfold listed. rewrite Hs2. split_and!; [done| |].
      * intros Hin. apply list_elem_of_fmap in Hin as (w & -> & Hw).
        apply list_elem_of_filter in Hw as [Hne _]. done.
      * intros x Hx Hin. apply list_elem_of_fmap in Hin as (w & -> & Hw).
        apply list_elem_of_fmap. exists w. split; [done|].
        by apply list_elem_of_filter.
Qed.

(** *** The theorems at work on a small library *)

Lemma single_list_load_in_flight_witness :
  let s := run library_loading [ClickCancel 0; Settled 1 (Respond true (inr None))] in
  reachable s
  ∧ requests s = [GET "/api/workflows"; POST "/api/workflows/wf_1/cancel"]
  ∧ size (loadsInFlight s) ≤ 1
  ∧ (loadsInFlight s ≠ ∅ →
       loadWorkflows s = s
       ∧ requests (handleRefresh s) = requests s
       ∧ pending (handleRefresh s) = pending s).
Proof.
  intros s. assert (reachable s) as Hr by apply library_reachable_run, reachable_mount.
  split_and!; [exact Hr|reflexivity|..]; apply (single_list_load_in_flight s Hr).
Defined.

Lemma delete_removes_after_success_witness :
  let s0 := run library_loading [Settled 0 (Respond false (inr None))] in
  let s := run s0 [ClickDelete false 0; ConfirmDelete; ClickRefresh] in
  pending s !! 1 = Some (KDelete "wf_2" (safeWorkflows s0))
  ∧ listed s = ["wf_1"; "wf_2"]
  ∧ listed (step s (Settled 1 (Reject "Failed to fetch"))) = ["wf_1"; "wf_2"]
  ∧ listed (step s (Settled 1 (Respond false (inr None)))) = ["wf_1"; "wf_2"]
  ∧ listed (step s (Settled 1 (Respond true (inr None)))) = ["wf_1"].
Proof.
  intros s0 s.
  assert (pending s !! 1 = Some (KDelete "wf_2" (safeWorkflows s0))) as Hk by reflexivity.
  destruct (delete_removes_after_success s0 "wf_2" s) as [_ H].
  destruct (H Hk) as (Hrej & Hbad & Hok).
  split_and!; [exact Hk|reflexivity|..].
  - unfold listed, safeWorkflows. by rewrite Hrej.
  - unfold listed, safeWorkflows. by rewrite Hbad.
  - destruct (Hok (inr None)) as [Hs2 _].
    etrans; [exact (f_equal (fmap Workflow.id) Hs2)|reflexivity].
Defined.

End LibraryTheory.

(** ** Further properties of the tracker *)

Module ExecutorAuxTheory.
Import Executor ExecutorTheory ExecutorAux.

Lemma commit_sched s : sched_inv s → sched_inv (commit s).
Proof.
  intros Hs. unfold commit. case_decide as Hd; [done|].
  remember (cleanup s) as c eqn:Ec. clear Ec Hs Hd s.
  unfold effect, sched_inv.
  destruct (isStreaming c || negb (Js.truthy (workflowId c))) eqn:Hg; simpl.
  - intros id [= Hst Hid Hp] Hne. rewrite Hst in Hg. simpl in Hg.
    apply negb_true_iff in Hg. rewrite <-Hid in Hne. apply truthy_true in Hne.
    congruence.
  - unfold fetchStatus. simpl. destruct (polling c) eqn:Hp; simpl.
    + intros id _ _ He.
      assert (nextTimer c ∈ ({[nextTimer c]} ∪ timers c : gset nat)) as Hin
        by (apply elem_of_union_l, elem_of_singleton; done).
      rewrite He in Hin. by apply elem_of_empty in Hin.
    + intros id [= _ _ Hp']. congruence.
Qed.

Lemma reachable_sched s : reachable s → sched_inv s.
Proof.
  induction 1 as [id st ss|s e _ IH].
  - apply commit_sched. intros id' Hd. done.
  - unfold step. apply commit_sched.
    destruct (handle_timers e s) as (Ht & _ & Hd & _).
    unfold sched_inv. rewrite Ht, Hd. exact IH.
Qed.


(** X1.  Between two turns of the event loop an interval timer is active
    exactly when streaming is over, the workflow id is non-empty and
    polling is on; there is never more than one, and it is the one the ref
    holds. *)
Theorem timer_active_iff_polling s :
  reachable s →
  (timers s ≠ ∅ ↔ isStreaming s = false ∧ workflowId s ≠ "" ∧ polling s = true)
  ∧ (∀ h, h ∈ timers s → intervalRef s = Some h)
  ∧ (∀ h1 h2, h1 ∈ timers s → h2 ∈ timers s → h1 = h2).
Proof.
  intros Hr. pose proof (reachable_Inv s Hr) as HI.
  pose proof (reachable_sched s Hr) as Hs. split_and!.
  - split; [by apply timer_runs_only_when_polling|].
    intros (Hst & Hid & Hp). apply (Hs (workflowId s)); [|done].
    rewrite (inv_flushed s HI). unfold deps. by rewrite Hst, Hp.
  - intros h Hh. by destruct (inv_timer s HI h Hh).
  - intros h1 h2 H1 H2.
    destruct (inv_timer s HI h1 H1) as [E1 _], (inv_timer s HI h2 H2) as [E2 _].
    congruence.
Qed.

(** X2.  Unmounting leaves no interval timer active, and touches nothing
    else. *)
Theorem unmount_clears_timer s :
  reachable s →
  timers (unmount s) = ∅
  ∧ workflowStatus (unmount s) = workflowStatus s
  ∧ requests (unmount s) = requests s
  ∧ pending (unmount s) = pending s.
Proof.
  intros Hr. pose proof (reachable_Inv s Hr) as HI. unfold unmount.
  destruct (cleanup_frame s) as (_&_&_&Hw&_&_&_&_&Hq&Hp&_).
  split_and!; [|done..]. apply cleanup_clears, HI.
Qed.

Lemma pending_not_quiet s rid k :
  quiet_inv s → pending s !! rid = Some k →
  isStreaming s = false ∧ workflowId s ≠ "".
Proof.
  intros HQ Hk. split.
  - destruct (isStreaming s) eqn:Hs; [|done].
    destruct (HQ (or_introl Hs)) as (_ & Hp & _). by rewrite Hp in Hk.
  - intros Hi. destruct (HQ (or_intror Hi)) as (_ & Hp & _).
    by rewrite Hp in Hk.
Qed.

(** X3.  A status request that fails (the promise rejects, the response is
    not ok, or its body does not parse) only sets the error message: the
    cached status, the polling flag and the timer stay as they are and no
    request is issued in its place. *)
Theorem failed_fetch_sets_error_only s rid o m :
  reachable s → pending s !! rid = Some KStatus → failure_message o = Some m →
  let s' := step s (Settled rid o) in
  error s' = Some m
  ∧ workflowStatus s' = workflowStatus s ∧ polling s' = polling s
  ∧ timers s' = timers s ∧ intervalRef s' = intervalRef s
  ∧ requests s' = requests s ∧ pending s' = delete rid (pending s).
Proof.
  intros Hr Hk Hm s'. pose proof (reachable_Inv s Hr) as HI.
  assert (s' = setError (Some m) (complete rid s)) as ->.
  { unfold s', step. simpl. rewrite Hk. simpl.
    assert (fetchStatus_settled o (complete rid s) = setError (Some m) (complete rid s)) as ->.
    { destruct o as [m'|[] [m'|d]]; simpl in *; congruence. }
    apply commit_idle. apply HI. }
  by repeat split.
Qed.

(** X4.  With nothing cached, a failed status request with a non-empty
    message brings the error screen showing that message; an empty message
    leaves the main screen.  The Retry button of the error screen issues
    one status request for the current id and changes nothing else. *)
Theorem first_fetch_failure_shows_error_screen s rid o m :
  generated s → workflowStatus s = None →
  pending s !! rid = Some KStatus → failure_message o = Some m →
  let s' := step s (Settled rid o) in
  (m ≠ "" → view s' = LoadFailed m)
  ∧ (m = "" → view s' = Main (tracker s'))
  ∧ (m ≠ "" →
       let s'' := step s' ClickErrorRetry in
       requests s'' = requests s' ++ [GET (statusUrl (workflowId s))]
       ∧ pending s'' = <[length (requests s') := KStatus]> (pending s')
       ∧ untouched s' s'').
Proof.
  intros Hr Hw Hk Hm s'. pose proof (generated_Inv s Hr) as HI.
  destruct (pending_not_quiet s rid _ (generated_quiet s Hr) Hk) as [Hs Hi].
  assert (s' = setError (Some m) (complete rid s)) as Es.
  { unfold s', step. simpl. rewrite Hk. simpl.
    assert (fetchStatus_settled o (complete rid s) = setError (Some m) (complete rid s)) as ->.
    { destruct o as [m'|[] [m'|d]]; simpl in *; congruence. }
    apply commit_idle. apply HI. }
  assert (m ≠ "" → view s' = LoadFailed m) as Hv.
  { intros Hne. rewrite Es. unfold view. simpl.
    change (isStreaming (setError (Some m) (complete rid s))) with (isStreaming s).
    rewrite Hs, Hw. apply truthy_true in Hne. by rewrite Hne. }
  split_and!.
  - exact Hv.
  - intros ->. rewrite Es. unfold view. simpl.
    change (isStreaming (setError (Some "") (complete rid s))) with (isStreaming s).
    by rewrite Hs, Hw.
  - intros Hne s''.
    assert (s'' = fetchStatus (workflowId s) s') as ->.
    { unfold s'', step. simpl. rewrite (Hv Hne).
      assert (workflowId s' = workflowId s) as -> by (by rewrite Es).
      apply commit_idle. rewrite Es. apply HI. }
    by repeat split.
Qed.

Lemma reachable_fresh s : reachable s → fresh_inv s.
Proof.
  assert (∀ s, fresh_inv s → fresh_inv (commit s)) as Hc.
  { intros s0 Hf. unfold commit. case_decide; [done|].
    destruct (cleanup_frame s0) as (_&_&_&_&_&_&_&_&Hq&Hp&_).
    assert (fresh_inv (cleanup s0)) as Hf' by (unfold fresh_inv; by rewrite Hq, Hp).
    revert Hf'. generalize (cleanup s0). clear. intros c Hf. unfold effect, fresh_inv.
    assert (∀ x rid, is_Some (pending (fetchStatus x c) !! rid) →
                     rid < length (requests (fetchStatus x c))) as Hx.
    { intros x rid. simpl. rewrite lookup_insert, length_app. simpl.
      case_decide; [lia|]. intros H'. specialize (Hf rid H'). lia. }
    destruct (isStreaming c || negb (Js.truthy (workflowId c))); [exact Hf|].
    destruct (polling (fetchStatus (workflowId c) c)); exact (Hx _). }
  assert (∀ s r k, fresh_inv s → fresh_inv (issue r k s)) as Hi.
  { intros s0 r k Hf rid. simpl. rewrite lookup_insert, length_app. simpl.
    case_decide; [lia|]. intros H'. specialize (Hf rid H'). lia. }
  assert (∀ s rid, fresh_inv s → fresh_inv (complete rid s)) as Hd.
  { intros s0 rid Hf r. simpl. rewrite lookup_delete. case_decide; [by intros []|].
    apply Hf. }
  induction 1 as [id st ss|s e _ IH].
  - apply Hc. intros rid. simpl. rewrite lookup_empty. by intros [].
  - unfold step. apply Hc.
    destruct e as [id st|b|ss|h|rid o| | | |row]; simpl.
    + done.
    + done.
    + done.
    + case_decide; [by apply Hi|done].
    + destruct (pending s !! rid) as [k|]; [|done].
      specialize (Hd s rid IH).
      destruct k, o as [m|[] [m|[| |d]]]; simpl; try done; try (by apply Hi).
      by destruct (isTerminal _).
    + destruct (view s) as [| |t]; try done. destruct (cancelButton t); [by apply Hi|done].
    + destruct (view s) as [| |t]; try done. destruct (retryButton t); [by apply Hi|done].
    + destruct (view s); try done. by apply Hi.
    + destruct (view s) as [| |t]; try done. by destruct (rows t !! row).
Qed.

(** X5.  Every firing of the active timer issues one status request for
    the current id, also while earlier requests are still in flight: the
    number of requests in flight grows by one, and nothing else changes. *)
Theorem timer_tick_always_fetches s h :
  reachable s → h ∈ timers s →
  let s' := step s (TimerFired h) in
  requests s' = requests s ++ [GET (statusUrl (workflowId s))]
  ∧ pending s' = <[length (requests s) := KStatus]> (pending s)
  ∧ size (pending s') = S (size (pending s))
  ∧ untouched s s'.
Proof.
  intros Hr Hh s'. pose proof (reachable_Inv s Hr) as HI.
  assert (s' = fetchStatus (workflowId s) s) as ->.
  { unfold s', step. simpl. rewrite decide_True by done. apply commit_idle, HI. }
  split_and!; [done|done| |by repeat split].
  simpl. apply map_size_insert_None.
  destruct (pending s !! length (requests s)) eqn:Hl; [|done].
  pose proof (reachable_fresh s Hr _ (mk_is_Some _ _ Hl)). lia.
Qed.


(** X7.  A successful status response carrying a status object issues no
    request of its own, with one exception: the terminal status that
    switches polling off makes the effect run again, and that run fetches
    the status once more (without starting a timer). *)
Theorem settling_fetches_once_more s rid data :
  generated s → pending s !! rid = Some KStatus →
  let s' := step s (Settled rid (Respond true (inr (JObject data)))) in
  (isTerminal (WorkflowStatus.status data) = true → polling s = true →
     requests s' = requests s ++ [GET (statusUrl (workflowId s))]
     ∧ pending s' !! length (requests s) = Some KStatus ∧ timers s' = ∅)
  ∧ (isTerminal (WorkflowStatus.status data) = false ∨ polling s = false →
     requests s' = requests s ∧ timers s' = timers s
     ∧ pending s' = delete rid (pending s)).
Proof.
  intros Hr Hk s'. pose proof (generated_Inv s Hr) as HI.
  destruct (pending_not_quiet s rid _ (generated_quiet s Hr) Hk) as [Hs Hi].
  set (s1 := handle (Settled rid (Respond true (inr (JObject data)))) s).
  assert (requests s1 = requests s ∧ pending s1 = delete rid (pending s)
          ∧ timers s1 = timers s ∧ effectDeps s1 = effectDeps s
          ∧ isStreaming s1 = isStreaming s ∧ workflowId s1 = workflowId s
          ∧ polling s1 = (if isTerminal (WorkflowStatus.status data) then false
                          else polling s)) as (Hq & Hp & Ht & Hd & Hst & Hid & Hpl).
  { unfold s1. simpl. rewrite Hk. simpl. by destruct (isTerminal _). }
  split.
  - intros Hterm Hpol. rewrite Hterm in Hpl.
    unfold s', step. fold s1. unfold commit.
    rewrite decide_False.
    2:{ rewrite Hd, (inv_flushed s HI). unfold deps. rewrite Hpl, Hpol. congruence. }
    destruct (cleanup_frame s1) as (Hi'&_&Hss&_&_&Hp'&_&_&Hq'&Hpd'&_).
    assert (isStreaming (cleanup s1) = false) as Hs'.
    { unfold isStreaming. rewrite Hss. fold (isStreaming s1). by rewrite Hst. }
    assert (timers (cleanup s1) = ∅) as Ht'.
    { apply cleanup_clears. intros h Hh. rewrite Ht in Hh.
      destruct (handle_timers (Settled rid (Respond true (inr (JObject data)))) s)
        as (_ & Hir & _ & Hec & _).
      fold s1 in Hir, Hec. rewrite Hir, Hec. by apply (inv_timer s HI). }
    unfold effect. rewrite Hs', Hi', Hid.
    apply truthy_true in Hi. rewrite Hi. simpl.
    rewrite Hp', Hpl. simpl. rewrite Hq', Hq, ?Hi', ?Hid, Ht'.
    split_and!; [done| |done]. apply lookup_insert_eq.
  - intros Hor.
    assert (polling s1 = polling s) as Hpl'.
    { rewrite Hpl. destruct Hor as [->| ->]; [done|]. by destruct (isTerminal _). }
    assert (s' = s1) as ->.
    { unfold s', step. fold s1. apply commit_idle. rewrite Hd, (inv_flushed s HI).
      unfold deps. by rewrite Hst, Hid, Hpl'. }
    done.
Qed.


(** X8.  A click on a row of the steps list only moves the expansion: a
    collapsed row becomes the expanded one, the expanded row collapses.
    No request is issued, and afterwards the expanded rows are exactly
    those with the clicked row's index, if it was collapsed, and none
    otherwise. *)
Theorem click_step_toggles s t row r :
  reachable s → view s = Main t → rows t !! row = Some r →
  let s' := step s (ClickStep row) in
  expandedStep s' =
    (if isExpanded r then None else Some (StepStatus.index (stepOf r)))
  ∧ requests s' = requests s ∧ pending s' = pending s
  ∧ workflowStatus s' = workflowStatus s ∧ polling s' = polling s
  ∧ timers s' = timers s
  ∧ (∀ r', r' ∈ rows (tracker s') →
       isExpanded r' = true ↔
       isExpanded r = false
       ∧ StepStatus.index (stepOf r') = StepStatus.index (stepOf r)).
Proof.
  intros Hr Hv Hrow s'. pose proof (reachable_Inv s Hr) as HI.
  assert (s' = setExpandedStep
                 (if isExpanded r then None else Some (StepStatus.index (stepOf r))) s)
    as ->.
  { unfold s', step. simpl. rewrite Hv, Hrow. apply commit_idle, HI. }
  split_and!; [done..|].
  intros r' Hin. unfold tracker in Hin. simpl in Hin.
  apply list_elem_of_fmap in Hin as (st & -> & _). simpl.
  rewrite bool_decide_eq_true. destruct (isExpanded r); split.
  - done.
  - by intros [? _].
  - by intros [= ->].
  - by intros [_ ->].
Qed.

(** X9.  The step number of the header never exceeds the number of steps;
    it is at least one as soon as there is a step, and when every step is
    completed it is the number of steps, not one more. *)
Theorem header_step_within_total s :
  stepLabel (tracker s) =
    "Step " +:+ pretty (stepNumber s) +:+ " of " +:+ pretty (totalSteps s)
  ∧ completedCount s ≤ totalSteps s
  ∧ stepNumber s ≤ totalSteps s
  ∧ (0 < totalSteps s → 1 ≤ stepNumber s)
  ∧ (Forall (λ st, StepStatus.status st = "completed") (steps s) →
     stepNumber s = totalSteps s).
Proof.
  assert (completedCount s ≤ totalSteps s) as Hc by apply length_filter.
  unfold stepNumber. split_and!; [done|done|lia|lia|].
  intros Hall.
  assert (completedCount s = totalSteps s) as ->; [|lia].
  unfold completedCount, totalSteps. induction Hall as [|st l Hst _ IH]; [done|].
  rewrite filter_cons_True by done. simpl. by rewrite IH.
Qed.

(** X10.  The footer shows at most one block, and exactly one when the
    displayed status is one of the four known ones.  The Retry button of
    the header is there exactly when the footer shows the failure block,
    the Cancel button exactly when it shows the running block, and the
    report link needs a completed status and a non-empty report id. *)
Theorem footer_one_block s :
  length (footer s) ≤ 1
  ∧ (length (footer s) = 1 ↔
     status s ∈ ["completed"; "running"; "pending"; "failed"])
  ∧ (retryButton (tracker s) = true ↔ footer s = [Failure (failureMessage s)])
  ∧ (cancelButton (tracker s) = true ↔
     footer s = [Executing (completedCount s) (totalSteps s)])
  ∧ (footer s = [ReportLink (reportLabel s)] ↔
     status s = "completed" ∧ hasReport s = true)
  ∧ (workflowStatus s = None → footer s = [Queued]).
Proof.
  assert (∀ x : string,
            x = "completed" ∨ x = "running" ∨ x = "pending" ∨ x = "failed"
            ∨ (String.eqb x "completed" = false ∧ String.eqb x "running" = false
               ∧ String.eqb x "pending" = false ∧ String.eqb x "failed" = false
               ∧ x ∉ ["completed"; "running"; "pending"; "failed"])) as Hcases.
  { intros x.
    destruct (String.eqb_spec x "completed"); [tauto|].
    destruct (String.eqb_spec x "running"); [tauto|].
    destruct (String.eqb_spec x "pending"); [tauto|].
    destruct (String.eqb_spec x "failed"); [tauto|].
    do 4 right. split_and!; [done..|]. rewrite !elem_of_cons, elem_of_nil. tauto. }
  assert (∀ x : string, In x ["completed"; "running"; "pending"; "failed"] →
                        x ∈ ["completed"; "running"; "pending"; "failed"]) as Hin
    by (intros x; apply list_elem_of_In).
  assert (retryButton (tracker s) = String.eqb (status s) "failed") as -> by reflexivity.
  assert (cancelButton (tracker s) = String.eqb (status s) "running") as ->
    by reflexivity.
  unfold footer.
  split_and!.
  - destruct (Hcases (status s)) as [E|[E|[E|[E|(E1&E2&E3&E4&_)]]]];
      rewrite ?E, ?E1, ?E2, ?E3, ?E4; simpl; try destruct (hasReport s); simpl; lia.
  - destruct (Hcases (status s)) as [E|[E|[E|[E|(E1&E2&E3&E4&Hn)]]]];
      rewrite ?E, ?E1, ?E2, ?E3, ?E4; simpl; try destruct (hasReport s); simpl;
      split; try done; intros _; apply Hin; simpl; tauto.
  - destruct (Hcases (status s)) as [E|[E|[E|[E|(E1&E2&E3&E4&_)]]]];
      rewrite ?E, ?E1, ?E2, ?E3, ?E4; simpl; try destruct (hasReport s); simpl; done.
  - destruct (Hcases (status s)) as [E|[E|[E|[E|(E1&E2&E3&E4&_)]]]];
      rewrite ?E, ?E1, ?E2, ?E3, ?E4; simpl; try destruct (hasReport s); simpl; done.
  - destruct (Hcases (status s)) as [E|[E|[E|[E|(E1&E2&E3&E4&_)]]]];
      rewrite ?E, ?E1, ?E2, ?E3, ?E4; simpl; try destruct (hasReport s); simpl;
      split; try done; try (by intros [? ?]).
    all: intros [Heq _]; rewrite Heq in E1; done.
  - intros Hw. unfold status, hasReport. by rewrite Hw.
Qed.

(** X11.  Before the first successful fetch the rows are the steps of the
    props, as many as given and none with an empty status; after it they
    are the steps of the fetched body, also when it has none. *)
Theorem rows_come_from_props_until_fetch s l rid data :
  workflowStatus s = None → initialSteps s = Some l →
  pending s !! rid = Some KStatus →
  totalSteps s = length l
  ∧ Forall (λ st, StepStatus.status st ≠ "") (steps s)
  ∧ steps (step s (Settled rid (Respond true (inr (JObject data)))))
    = WorkflowStatus.steps data.
Proof.
  intros Hw Hl Hk. split_and!.
  - unfold totalSteps, steps. rewrite Hw, Hl. apply length_fmap.
  - unfold steps. rewrite Hw, Hl. apply Forall_fmap, Forall_forall. intros i _.
    simpl. destruct (InitialStep.status i) as [st|]; [|done].
    unfold Js.or_string. destruct (Js.truthy st) eqn:Ht; [|done].
    by apply truthy_true.
  - unfold steps. by rewrite workflowStatus_step, Hk.
Qed.

(** X12.  A step whose type and status are in none of the tables, and are
    not names inherited from [Object.prototype] either, is rendered with
    the generic affordances: the document icon, the pending clock and the
    colours of the search type. *)
Theorem unknown_step_gets_generic_affordances expanded st :
  stepIcons !! StepStatus.type st = None →
  statusIcons !! StepStatus.status st = None →
  StepStatus.type st ∉ Js.objectPrototype →
  StepStatus.status st ∉ Js.objectPrototype →
  StepIcon (renderStep expanded st) = Js.Own FileText
  ∧ StatusInfo_ (renderStep expanded st) = Js.Own statusIcons_pending
  ∧ typeColors (renderStep expanded st)
    = Js.Own (colors "bg-blue-50" "text-blue-700" "border-blue-200")
  ∧ stepTypeColors !! "search"
    = Some (colors "bg-blue-50" "text-blue-700" "border-blue-200")
  ∧ statusIcons !! "pending" = Some statusIcons_pending.
Proof.
  intros Ht Hs Hpt Hps.
  assert (stepTypeColors !! StepStatus.type st = None) as Hc.
  { apply not_elem_of_dom. apply not_elem_of_dom in Ht.
    assert (dom stepTypeColors = dom stepIcons) as -> by (by vm_compute). done. }
  unfold renderStep, stepIcon, Js.get_or, Js.get. simpl.
  rewrite Ht, Hs, Hc, !bool_decide_eq_false_2 by done. done.
Qed.


(** *** The theorems at work on [wf_1] *)

Lemma timer_active_iff_polling_witness :
  reachable wf1_polling ∧ timers wf1_polling = {[1]}
  ∧ (timers wf1_polling ≠ ∅ ↔
     isStreaming wf1_polling = false ∧ workflowId wf1_polling ≠ ""
     ∧ polling wf1_polling = true).
Proof.
  assert (reachable wf1_polling) as Hr by apply reachable_mount.
  split_and!; [exact Hr|reflexivity|]. apply (timer_active_iff_polling _ Hr).
Defined.

Lemma unmount_clears_timer_witness :
  reachable wf1_running ∧ timers wf1_running = {[1]}
  ∧ timers (unmount wf1_running) = ∅.
Proof.
  assert (reachable wf1_running) as Hr by (apply reachable_run, reachable_mount).
  split_and!; [exact Hr|reflexivity|]. apply (unmount_clears_timer _ Hr).
Defined.

Lemma failed_fetch_sets_error_only_witness :
  let s' := step wf1_running (Settled 1 (Respond false noBody)) in
  reachable wf1_running ∧ pending wf1_running !! 1 = Some KStatus
  ∧ error s' = Some "Failed to fetch status"
  ∧ workflowStatus s' = workflowStatus wf1_running
  ∧ polling s' = true ∧ timers s' = {[1]}.
Proof.
  intros s'.
  assert (reachable wf1_running) as Hr by (apply reachable_run, reachable_mount).
  destruct (failed_fetch_sets_error_only wf1_running 1 (Respond false noBody)
              "Failed to fetch status" Hr eq_refl eq_refl)
    as (He & Hw & Hp & Ht & _).
  split_and!; [exact Hr|reflexivity|exact He|exact Hw|..].
  - etrans; [exact Hp|reflexivity].
  - etrans; [exact Ht|reflexivity].
Defined.

Lemma first_fetch_failure_shows_error_screen_witness :
  let s' := step wf1_polling (Settled 0 (Reject "Failed to fetch")) in
  generated wf1_polling ∧ workflowStatus wf1_polling = None
  ∧ view s' = LoadFailed "Failed to fetch"
  ∧ requests (step s' ClickErrorRetry)
    = requests s' ++ [GET (statusUrl (workflowId wf1_polling))].
Proof.
  intros s'.
  assert (generated wf1_polling) as Hr by apply generated_mount.
  destruct (first_fetch_failure_shows_error_screen wf1_polling 0
              (Reject "Failed to fetch") "Failed to fetch" Hr eq_refl eq_refl eq_refl)
    as (Hv & _ & Hc).
  split_and!; [exact Hr|reflexivity|by apply Hv|].
  by destruct Hc as [Hq _].
Defined.

Lemma timer_tick_always_fetches_witness :
  let s' := step wf1_two_in_flight (TimerFired 1) in
  reachable wf1_two_in_flight ∧ 1 ∈ timers wf1_two_in_flight
  ∧ size (pending wf1_two_in_flight) = 2
  ∧ size (pending s') = 3.
Proof.
  intros s'.
  assert (reachable wf1_two_in_flight) as Hr by (apply reachable_run, reachable_mount).
  assert (1 ∈ timers wf1_two_in_flight) as Hh by (by vm_compute).
  destruct (timer_tick_always_fetches wf1_two_in_flight 1 Hr Hh) as (_ & _ & Hs & _).
  split_and!; [exact Hr|exact Hh|reflexivity|].
  etrans; [exact Hs|reflexivity].
Defined.

Lemma settling_fetches_once_more_witness :
  let s' := step wf1_polling
              (Settled 0 (Respond true (inr (JObject (snapshot "completed" 4 4 100 []))))) in
  generated wf1_polling ∧ pending wf1_polling !! 0 = Some KStatus
  ∧ requests s' = requests wf1_polling ++ [GET (statusUrl (workflowId wf1_polling))]
  ∧ timers s' = ∅.
Proof.
  intros s'.
  assert (generated wf1_polling) as Hr by apply generated_mount.
  destruct (settling_fetches_once_more wf1_polling 0
              (snapshot "completed" 4 4 100 []) Hr eq_refl) as [H _].
  destruct (H eq_refl eq_refl) as (Hq & _ & Ht).
  split_and!; [exact Hr|reflexivity|exact Hq|exact Ht].
Defined.

Lemma click_step_toggles_witness :
  let s' := step wf1_listing (ClickStep 3) in
  reachable wf1_listing ∧ view wf1_listing = Main (tracker wf1_listing)
  ∧ expandedStep s' = Some 3%Z
  ∧ expandedStep (step s' (ClickStep 3)) = None
  ∧ requests s' = requests wf1_listing.
Proof.
  intros s'.
  assert (reachable wf1_listing) as Hr by (apply reachable_run, reachable_mount).
  assert (reachable s') as Hr' by (by constructor).
  destruct (click_step_toggles wf1_listing (tracker wf1_listing) 3
              (renderStep None (sampleStep 3 "aggregate" "running")) Hr eq_refl eq_refl)
    as (He & Hq & _).
  destruct (click_step_toggles s' (tracker s') 3
              (renderStep (Some 3%Z) (sampleStep 3 "aggregate" "running")) Hr'
              eq_refl eq_refl) as (He' & _).
  split_and!; [exact Hr|reflexivity|exact He|exact He'|exact Hq].
Defined.

Lemma header_step_within_total_witness :
  let s := run wf1_polling
             [Settled 0 (Respond true (inr (JObject (snapshot "completed" 2 2 100
                [sampleStep 0 "search" "completed"; sampleStep 1 "extract" "completed"]))))] in
  stepNumber s = 2 ∧ totalSteps s = 2 ∧ stepLabel (tracker s) = "Step 2 of 2".
Proof.
  intros s. destruct (header_step_within_total s) as (Hl & _ & _ & _ & Hall).
  split_and!; [|reflexivity|].
  - etrans; [apply Hall|reflexivity]. repeat constructor.
  - etrans; [exact Hl|reflexivity].
Defined.

Lemma footer_one_block_witness :
  footer wf1_polling = [Queued] ∧ length (footer wf1_failed) = 1
  ∧ footer wf1_failed = [Failure "Workflow failed"].
Proof.
  destruct (footer_one_block wf1_polling) as (_ & _ & _ & _ & _ & Hq).
  destruct (footer_one_block wf1_failed) as (_ & Hl & Hf & _).
  split_and!.
  - by apply Hq.
  - apply Hl. vm_compute. apply list_elem_of_In. simpl. tauto.
  - etrans; [by apply Hf|reflexivity].
Defined.

Lemma rows_come_from_props_until_fetch_witness :
  let s := wf1_with_props in
  workflowStatus s = None ∧ pending s !! 0 = Some KStatus
  ∧ totalSteps s = 2
  ∧ Forall (λ st, StepStatus.status st ≠ "") (steps s)
  ∧ steps (step s (Settled 0 (Respond true (inr (JObject (snapshot "running" 0 0 0 []))))))
    = [].
Proof.
  intros s.
  destruct (rows_come_from_props_until_fetch s
              [ InitialStep.mk 0 "search" "Search" None None;
                InitialStep.mk 1 "extract" "Extract" None (Some "") ]
              0 (snapshot "running" 0 0 0 []) eq_refl eq_refl eq_refl)
    as (Hn & Hall & Hs).
  split_and!; [reflexivity|reflexivity|exact Hn|exact Hall|exact Hs].
Defined.

Lemma unknown_step_gets_generic_affordances_witness :
  let st := sampleStep 5 "summarize" "cancelled" in
  StepIcon (renderStep None st) = Js.Own FileText
  ∧ StatusInfo_ (renderStep None st) = Js.Own statusIcons_pending.
Proof.
  intros st.
  destruct (unknown_step_gets_generic_affordances None st) as (Hi & Hs & _).
  - reflexivity.
  - reflexivity.
  - vm_compute. intros H. by apply list_elem_of_In in H; simpl in H; intuition discriminate.
  - vm_compute. intros H. by apply list_elem_of_In in H; simpl in H; intuition discriminate.
  - by split.
Defined.

End ExecutorAuxTheory.

(** ** Further properties of the library view *)

Module LibraryAuxTheory.
Import Library LibraryTheory LibraryAux.

Lemma loading_mirrors_ref s : reachable s → loading s = isLoadingRef s.
Proof.
  assert (∀ s, loading s = isLoadingRef s →
               loading (loadWorkflows s) = isLoadingRef (loadWorkflows s)) as Hl.
  { intros s0 H. unfold loadWorkflows.
    destruct (isLoadingRef s0) eqn:E; simpl; congruence. }
  induction 1 as [ws|s e _ IH].
  - by apply Hl.
  - unfold step. destruct e as [rid o| |row|row|f row| |]; simpl.
    + destruct (pending s !! rid) as [k|]; [|done].
      destruct k as [|id ws| |]; simpl.
      * by destruct o as [m|[] [m|d]].
      * by destruct o as [m|[] body].
      * destruct o as [m|ok body]; simpl; [done|]. by apply Hl.
      * destruct o as [m|ok body]; simpl; [done|]. by apply Hl.
    + destruct (showsSpinner s || loading s); [done|]. by apply Hl.
    + destruct (showsSpinner s); [done|]. by destruct (activeWorkflows s !! row).
    + destruct (showsSpinner s); [done|]. by destruct (failedWorkflows s !! row).
    + destruct (showsSpinner s); [done|].
      by destruct ((if f then failedWorkflows s else completedWorkflows s) !! row).
    + destruct (showsSpinner s); [done|]. by destruct (confirmDialog s).
    + by destruct (showsSpinner s).
Qed.

Lemma loading_iff_in_flight s :
  reachable s → isLoadingRef s = true ↔ loadsInFlight s ≠ ∅.
Proof.
  intros Hr. pose proof (library_reachable_Inv s Hr) as [Hl Hi _]. split.
  - intros Hb. destruct (Hl Hb) as (r & Hk & _). intros He.
    assert (loadsInFlight s !! r = Some KLoad) as Hx by (by apply loadsInFlight_lookup).
    by rewrite He in Hx.
  - intros Hne. apply map_choose in Hne as (r & k & Hk).
    apply loadsInFlight_lookup in Hk as [Hk _].
    destruct (isLoadingRef s) eqn:Hb; [done|]. by destruct (Hi eq_refl r).
Qed.

(** X13.  The [loading] flag, the [isLoadingRef] ref and "a list load is in
    flight" always agree; so whenever the Refresh button is enabled, a
    click on it does issue the list request. *)
Theorem loading_flag_mirrors_load_in_flight s :
  reachable s →
  loading s = isLoadingRef s
  ∧ (loading s = true ↔ loadsInFlight s ≠ ∅)
  ∧ (loading s = false →
     let s' := step s ClickRefresh in
     requests s' = requests s ++ [GET "/api/workflows"]
     ∧ loading s' = true ∧ hasLoadedRef s' = false
     ∧ workflows s' = workflows s).
Proof.
  intros Hr. pose proof (loading_mirrors_ref s Hr) as Hm. split_and!.
  - done.
  - rewrite Hm. by apply loading_iff_in_flight.
  - intros Hl s'. unfold s', step. simpl.
    unfold showsSpinner. rewrite Hl. simpl.
    unfold handleRefresh, loadWorkflows. simpl. rewrite <-Hm, Hl. done.
Qed.

(** X14.  When the list request settles, however it settles, [loading] and
    the ref are reset and no load is in flight.  An ok response replaces
    the list by the body's [workflows], by the empty list when the body
    has none, and marks the view loaded.  Any failure keeps the list; a
    rejection or an unreadable body is logged, a response that is not ok
    is not. *)
Theorem load_settles_and_resets s rid o :
  reachable s → pending s !! rid = Some KLoad →
  let s' := step s (Settled rid o) in
  loading s' = false ∧ isLoadingRef s' = false ∧ loadsInFlight s' = ∅
  ∧ requests s' = requests s
  ∧ match o with
    | Respond true (inr data) =>
        workflows s' = Some (default [] data) ∧ hasLoadedRef s' = true
        ∧ console s' = console s
    | Respond false _ =>
        workflows s' = workflows s ∧ hasLoadedRef s' = hasLoadedRef s
        ∧ console s' = console s
    | Respond true (inl m) | Reject m =>
        workflows s' = workflows s ∧ hasLoadedRef s' = hasLoadedRef s
        ∧ console s' = console s ++ [("Failed to load workflows:", m)]
    end.
Proof.
  intros Hr Hk s'.
  assert (reachable s') as Hr' by (by constructor).
  assert (isLoadingRef s' = false) as Hb.
  { unfold s', step. simpl. rewrite Hk. by destruct o as [m|[] [m|d]]. }
  split_and!.
  - by rewrite (loading_mirrors_ref s' Hr').
  - done.
  - destruct (decide (loadsInFlight s' = ∅)) as [|Hne]; [done|].
    apply (loading_iff_in_flight s' Hr') in Hne. congruence.
  - unfold s', step. simpl. rewrite Hk. by destruct o as [m|[] [m|d]].
  - unfold s', step. simpl. rewrite Hk. by destruct o as [m|[] [m|d]].
Qed.

Lemma sectioned_iff w :
  sectioned w ↔
  Workflow.status w = "running" ∨ Workflow.status w = "pending"
  ∨ Workflow.status w = "completed" ∨ Workflow.status w = "failed".
Proof. unfold sectioned. rewrite !elem_of_cons, elem_of_nil. tauto. Qed.

Lemma sections_count (l : list Workflow.t) :
  length (filter (λ w, Workflow.status w = "running" ∨ Workflow.status w = "pending") l)
  + length (filter (λ w, Workflow.status w = "completed") l)
  + length (filter (λ w, Workflow.status w = "failed") l)
  + length (filter (λ w, ¬ sectioned w) l)
  = length l.
Proof.
  induction l as [|w l IH]; [done|].
  rewrite !filter_cons.
  repeat case_decide; simpl; rewrite ?sectioned_iff in *; try lia;
    exfalso; intuition congruence.
Qed.

Lemma filter_none {A} (P Q : A → Prop) `{!∀ x, Decision (P x)} (l : list A) :
  Forall (λ x, ¬ Q x) l → (∀ x, P x → Q x) → filter P l = [].
Proof.
  intros Hall HP. induction Hall as [|x l Hx _ IH]; [done|].
  rewrite filter_cons_False; [done|]. intros Hp. by apply Hx, HP.
Qed.

(** X15.  The three sections split the list by status: no workflow is in
    two of them, and together they hold exactly the workflows whose status
    is running, pending, completed or failed.  A workflow with any other
    status is in no section, and a list made only of such workflows shows
    no section and no empty-state block either. *)
Theorem sections_split_by_status s :
  (∀ w, w ∈ activeWorkflows s →
        (w ∉ completedWorkflows s) ∧ (w ∉ failedWorkflows s))
  ∧ (∀ w, w ∈ completedWorkflows s → w ∉ failedWorkflows s)
  ∧ (∀ w, w ∈ activeWorkflows s ∨ w ∈ completedWorkflows s ∨ w ∈ failedWorkflows s
          ↔ w ∈ safeWorkflows s ∧ sectioned w)
  ∧ length (activeWorkflows s) + length (completedWorkflows s)
    + length (failedWorkflows s)
    = length (filter sectioned (safeWorkflows s))
  ∧ (safeWorkflows s ≠ [] → Forall (λ w, ¬ sectioned w) (safeWorkflows s) →
     activeWorkflows s = [] ∧ completedWorkflows s = [] ∧ failedWorkflows s = []
     ∧ emptyState s = false).
Proof.
  unfold activeWorkflows, completedWorkflows, failedWorkflows.
  split_and!.
  - intros w. rewrite !list_elem_of_filter. intuition congruence.
  - intros w. rewrite !list_elem_of_filter. intuition congruence.
  - intros w. rewrite !list_elem_of_filter, sectioned_iff. tauto.
  - pose proof (sections_count (safeWorkflows s)) as Hc.
    pose proof (filter_app_complement sectioned (safeWorkflows s)) as Hp.
    apply Permutation_length in Hp. rewrite length_app in Hp. lia.
  - intros Hne Hall.
    split_and!.
    + eapply filter_none; [exact Hall|]. intros w. rewrite sectioned_iff. tauto.
    + eapply filter_none; [exact Hall|]. intros w. rewrite sectioned_iff. tauto.
    + eapply filter_none; [exact Hall|]. intros w. rewrite sectioned_iff. tauto.
    + unfold emptyState. destruct (safeWorkflows s); [done|]. done.
Qed.

Lemma requests_handleRefresh s :
  requests (handleRefresh s) =
    requests s ++ (if isLoadingRef s then [] else [GET "/api/workflows"]).
Proof.
  unfold handleRefresh, loadWorkflows. simpl.
  destruct (isLoadingRef s); simpl; [by rewrite app_nil_r|done].
Qed.

(** X16.  A DELETE is issued by nothing but the confirmation of an open
    dialog, and it is the DELETE of the workflow the dialog was opened for.
    Opening the dialog issues nothing and names a workflow of the list;
    closing it takes the confirmation away. *)
Theorem delete_only_on_confirm s :
  (∀ e url, DELETE url ∈ issued s e →
     e = ConfirmDelete
     ∧ ∃ d, confirmDialog s = Some d ∧ url = workflowUrl (dialog_workflowId d))
  ∧ (∀ failed row,
       let s' := step s (ClickDelete failed row) in
       requests s' = requests s ∧ workflows s' = workflows s
       ∧ (confirmDialog s' = confirmDialog s
          ∨ ∃ w, w ∈ safeWorkflows s
                 ∧ confirmDialog s' =
                     Some {| isOpen := true; dialog_workflowId := Workflow.id w;
                             workflowTitle := Workflow.title w |}))
  ∧ issued (step s CloseDialog) ConfirmDelete = [].
Proof.
  assert (∀ (l : list Request) r, drop (length l) (l ++ [r]) = [r]) as Hd1.
  { intros l r. by rewrite drop_app_length. }
  assert (∀ (l : list Request), drop (length l) l = []) as Hd0.
  { intros l. by rewrite drop_all. }
  split_and!.
  - intros e url. unfold issued, step.
    destruct e as [rid o| |row|row|f row| |]; simpl.
    + destruct (pending s !! rid) as [k|]; [|by rewrite Hd0, elem_of_nil].
      destruct k as [|id ws| |]; simpl.
      * destruct o as [m|[] [m|d]]; simpl; by rewrite Hd0, elem_of_nil.
      * destruct o as [m|[] body]; simpl; by rewrite Hd0, elem_of_nil.
      * destruct o as [m|ok body]; simpl; [by rewrite Hd0, elem_of_nil|].
        rewrite requests_handleRefresh. simpl.
        destruct (isLoadingRef s); rewrite ?app_nil_r, ?Hd0, ?Hd1, ?elem_of_nil,
          ?list_elem_of_singleton; done.
      * destruct o as [m|ok body]; simpl; [by rewrite Hd0, elem_of_nil|].
        rewrite requests_handleRefresh. simpl.
        destruct (isLoadingRef s); rewrite ?app_nil_r, ?Hd0, ?Hd1, ?elem_of_nil,
          ?list_elem_of_singleton; done.
    + destruct (showsSpinner s || loading s); [by rewrite Hd0, elem_of_nil|].
      rewrite requests_handleRefresh.
      destruct (isLoadingRef s); rewrite ?app_nil_r, ?Hd0, ?Hd1, ?elem_of_nil,
        ?list_elem_of_singleton; done.
    + destruct (showsSpinner s); [by rewrite Hd0, elem_of_nil|].
      destruct (activeWorkflows s !! row); simpl;
        rewrite ?Hd0, ?Hd1, ?elem_of_nil, ?list_elem_of_singleton; done.
    + destruct (showsSpinner s); [by rewrite Hd0, elem_of_nil|].
      destruct (failedWorkflows s !! row); simpl;
        rewrite ?Hd0, ?Hd1, ?elem_of_nil, ?list_elem_of_singleton; done.
    + destruct (showsSpinner s); [by rewrite Hd0, elem_of_nil|].
      destruct ((if f then failedWorkflows s else completedWorkflows s) !! row); simpl;
        by rewrite Hd0, elem_of_nil.
    + destruct (showsSpinner s); [by rewrite Hd0, elem_of_nil|].
      destruct (confirmDialog s) as [d|]; simpl; [|by rewrite Hd0, elem_of_nil].
      rewrite Hd1, list_elem_of_singleton. intros [= ->]. eauto.
    + destruct (showsSpinner s); simpl; by rewrite Hd0, elem_of_nil.
  - intros f row s'. unfold s', step. simpl.
    destruct (showsSpinner s); [by repeat split; left|].
    destruct ((if f then failedWorkflows s else completedWorkflows s) !! row)
      as [w|] eqn:Hw; [|by repeat split; left].
    simpl. repeat split. right. exists w. split; [|done].
    apply list_elem_of_lookup_2 in Hw.
    destruct f; apply list_elem_of_filter in Hw; tauto.
  - unfold issued, step. simpl.
    destruct (showsSpinner s) eqn:Hs; simpl.
    + rewrite Hs. apply Hd0.
    + change (showsSpinner (setConfirmDialog None s)) with (showsSpinner s).
      rewrite Hs. simpl. apply Hd0.
Qed.

(** X17.  The delete handler writes back the list of the render it was
    confirmed in.  So when two deletes confirmed against the same list both
    succeed, the list ends as that list without the second workflow: the
    workflow deleted first is listed again. *)
Theorem overlapping_deletes_restore_first s r1 r2 a b ws body1 body2 :
  pending s !! r1 = Some (KDelete a ws) → pending s !! r2 = Some (KDelete b ws) →
  r1 ≠ r2 →
  let s1 := step s (Settled r1 (Respond true body1)) in
  let s2 := step s1 (Settled r2 (Respond true body2)) in
  (a ∉ listed s1)
  ∧ safeWorkflows s2 = filter (λ w, Workflow.id w ≠ b) ws
  ∧ (a ≠ b → a ∈ (Workflow.id <$> ws) → a ∈ listed s2).
Proof.
  intros H1 H2 Hne s1 s2.
  assert (safeWorkflows s1 = filter (λ w, Workflow.id w ≠ a) ws) as E1.
  { unfold s1, step. simpl. by rewrite H1. }
  assert (pending s1 !! r2 = Some (KDelete b ws)) as H2'.
  { unfold s1, step. simpl. rewrite H1. simpl. by rewrite lookup_delete_ne. }
  assert (safeWorkflows s2 = filter (λ w, Workflow.id w ≠ b) ws) as E2.
  { unfold s2, step. simpl. by rewrite H2'. }
  split_and!.
  - unfold listed. rewrite E1. intros Hin.
    apply list_elem_of_fmap in Hin as (w & -> & Hw).
    by apply list_elem_of_filter in Hw as [? _].
  - done.
  - intros Hab Hin. unfold listed. rewrite E2.
    apply list_elem_of_fmap in Hin as (w & -> & Hw).
    apply list_elem_of_fmap. exists w. split; [done|].
    by apply list_elem_of_filter.
Qed.

(** X18.  Cancel and Retry on a card post to the endpoint of that card's
    workflow and leave the list as it is.  When the command resolves,
    whatever its HTTP status, the list is reloaded, unless a load is
    already in flight: then nothing is issued.  When it rejects, the
    failure is logged and nothing is reloaded. *)
Theorem card_command_reloads_list s rid k :
  reachable s → pending s !! rid = Some k → k = KCancel ∨ k = KRetry →
  (∀ ok body,
     let s' := step s (Settled rid (Respond ok body)) in
     workflows s' = workflows s ∧ hasLoadedRef s' = false
     ∧ (loadsInFlight s = ∅ →
        requests s' = requests s ++ [GET "/api/workflows"] ∧ loading s' = true)
     ∧ (loadsInFlight s ≠ ∅ → requests s' = requests s))
  ∧ (∀ m,
       let s' := step s (Settled rid (Reject m)) in
       workflows s' = workflows s ∧ requests s' = requests s
       ∧ console s' =
           console s ++ [(if decide (k = KCancel) then "Cancel workflow error:"
                          else "Retry workflow error:", m)])
  ∧ (∀ row w, showsSpinner s = false →
       (activeWorkflows s !! row = Some w →
        requests (step s (ClickCancel row)) =
          requests s ++ [POST (workflowUrl (Workflow.id w) +:+ "/cancel")])
       ∧ (failedWorkflows s !! row = Some w →
          requests (step s (ClickRetry row)) =
            requests s ++ [POST (workflowUrl (Workflow.id w) +:+ "/retry")])).
Proof.
  intros Hr Hk Hor. pose proof (loading_iff_in_flight s Hr) as Hl.
  split_and!.
  - intros ok body s'.
    assert (s' = handleRefresh (complete rid s)) as ->.
    { unfold s', step. simpl. rewrite Hk. by destruct Hor as [-> | ->]. }
    unfold handleRefresh, loadWorkflows. simpl.
    destruct (isLoadingRef s) eqn:Hb; simpl; split_and!; try done.
    + intros He. by apply Hl in He.
    + intros Hne. apply Hl in Hne. congruence.
  - intros m s'. unfold s', step. simpl. rewrite Hk.
    by destruct Hor as [-> | ->].
  - intros row w Hs. unfold step. simpl. rewrite Hs.
    split; intros ->; done.
Qed.


(** *** The theorems at work on a small library *)

Lemma loading_flag_mirrors_load_in_flight_witness :
  let s' := step library_loaded ClickRefresh in
  reachable library_loaded ∧ loading library_loaded = false
  ∧ requests s' = requests library_loaded ++ [GET "/api/workflows"]
  ∧ loading s' = true.
Proof.
  intros s'.
  assert (reachable library_loaded) as Hr by apply library_reachable_run, reachable_mount.
  destruct (loading_flag_mirrors_load_in_flight library_loaded Hr) as (_ & _ & H).
  destruct (H eq_refl) as (Hq & Hl & _).
  split_and!; [exact Hr|reflexivity|exact Hq|exact Hl].
Defined.

Lemma load_settles_and_resets_witness :
  let s' := step library_loading (Settled 0 (Respond true (inr None))) in
  reachable library_loading ∧ pending library_loading !! 0 = Some KLoad
  ∧ loading s' = false ∧ isLoadingRef s' = false ∧ loadsInFlight s' = ∅
  ∧ workflows s' = Some [] ∧ hasLoadedRef s' = true.
Proof.
  intros s'.
  assert (reachable library_loading) as Hr by apply reachable_mount.
  destruct (load_settles_and_resets library_loading 0 (Respond true (inr None)) Hr eq_refl)
    as (Hl & Hb & Hf & _ & Hw & Hh & _).
  split_and!; [exact Hr|reflexivity|exact Hl|exact Hb|exact Hf|exact Hw|exact Hh].
Defined.

Lemma sections_split_by_status_witness :
  let s := run library_loading
             [Settled 0 (Respond true (inr (Some [sampleWorkflow "wf_4" "cancelled"])))] in
  listed s = ["wf_4"]
  ∧ activeWorkflows s = [] ∧ completedWorkflows s = [] ∧ failedWorkflows s = []
  ∧ emptyState s = false ∧ showsSpinner s = false.
Proof.
  intros s. destruct (sections_split_by_status s) as (_ & _ & _ & _ & H).
  destruct H as (Ha & Hc & Hf & He).
  - vm_compute. discriminate.
  - repeat constructor. intros Hs. apply sectioned_iff in Hs. vm_compute in Hs.
    intuition discriminate.
  - split_and!; [reflexivity|exact Ha|exact Hc|exact Hf|exact He|reflexivity].
Defined.

Lemma delete_only_on_confirm_witness :
  let s := run library_loaded [ClickDelete true 0] in
  DELETE "/api/workflows/wf_3" ∈ issued s ConfirmDelete
  ∧ ∃ d, confirmDialog s = Some d
         ∧ "/api/workflows/wf_3" = workflowUrl (dialog_workflowId d).
Proof.
  intros s.
  assert (DELETE "/api/workflows/wf_3" ∈ issued s ConfirmDelete) as Hin
    by (vm_compute; apply list_elem_of_In; simpl; tauto).
  split; [exact Hin|].
  destruct (delete_only_on_confirm s) as (H & _).
  by destruct (H ConfirmDelete _ Hin) as [_ ?].
Defined.

Lemma overlapping_deletes_restore_first_witness :
  let s := library_two_deletes in
  let ws := safeWorkflows library_loaded in
  let s2 := run s [Settled 1 (Respond true (inr None)); Settled 2 (Respond true (inr None))] in
  pending s !! 1 = Some (KDelete "wf_2" ws) ∧ pending s !! 2 = Some (KDelete "wf_3" ws)
  ∧ listed s2 = ["wf_1"; "wf_2"; "wf_4"]
  ∧ "wf_2" ∈ listed s2.
Proof.
  intros s ws s2.
  destruct (overlapping_deletes_restore_first s 1 2 "wf_2" "wf_3" ws
              (inr None) (inr None) eq_refl eq_refl) as (_ & _ & H); [lia|].
  split_and!; [reflexivity|reflexivity|reflexivity|].
  apply H; [done|]. vm_compute. apply list_elem_of_In. simpl. tauto.
Defined.

Lemma card_command_reloads_list_witness :
  let s := library_cancelling in
  let s' := step s (Settled 1 (Respond false (inr None))) in
  reachable s ∧ pending s !! 1 = Some KCancel
  ∧ requests s = [GET "/api/workflows"; POST "/api/workflows/wf_1/cancel"]
  ∧ requests s' = requests s ++ [GET "/api/workflows"]
  ∧ workflows s' = workflows s.
Proof.
  intros s s'.
  assert (reachable s) as Hr by apply library_reachable_run, library_reachable_run, reachable_mount.
  destruct (card_command_reloads_list s 1 KCancel Hr eq_refl (or_introl eq_refl))
    as (H & _).
  destruct (H false (inr None)) as (Hw & _ & Hq & _).
  split_and!; [exact Hr|reflexivity|reflexivity| |exact Hw].
  apply Hq. reflexivity.
Defined.

End LibraryAuxTheory.
